(** * A serverless CRUD service over a key-value store: model and properties

    The program is a single Lambda function ([package main]) together with a
    library package ([pkg/user]) that repeats the same four operations with
    the store client passed as an argument.  This development embeds both
    in Rocq and proves the properties of the service's specification.

    Layout: the Go runtime fragment that is needed (results, panics, state
    threading), the regular-expression engine behind [regexp.MatchString],
    the DynamoDB data model and attribute codec, the two packages, an
    in-memory table used as a test double, and then the theorems. *)

From Stdlib Require Import ZArith Ascii String List Bool Lia.
From stdpp Require Import base option strings gmap list pretty.

Open Scope string_scope.
Open Scope Z_scope.

(* ===================================================================== *)
(** * Go runtime fragment                                                 *)
(* ===================================================================== *)

(** Go's [error] values are only ever printed or dropped by this program;
    an error is represented by its message. *)
Definition error := string.

(** A Go call returning [(value, err)]: exactly one of the two is set. *)
Inductive res (A : Type) : Type :=
| Ok (a : A)
| Err (e : error).
Arguments Ok {A} a.
Arguments Err {A} e.

(** What a run of a function ends with: it returns, or the goroutine
    panics (here only through a nil pointer dereference). *)
Inductive outcome (A : Type) : Type :=
| Done (a : A)
| Panic (msg : string).
Arguments Done {A} a.
Arguments Panic {A} msg.

(** Functions of the program run against the state of the remote store,
    which the client calls read and update. *)
Definition Go (St A : Type) : Type := St -> outcome (A * St).

Definition ret {St A} (a : A) : Go St A := fun st => Done (a, st).

Definition bind {St A B} (m : Go St A) (k : A -> Go St B) : Go St B :=
  fun st =>
    match m st with
    | Done (a, st') => k a st'
    | Panic msg => Panic msg
    end.

(** Sequencing is written with stdpp's monad notation [x ← m; k]. *)
#[global] Instance Go_ret {St} : MRet (Go St) := @ret St.
#[global] Instance Go_bind {St} : MBind (Go St) := fun A B k m => bind m k.

Definition panic {St A} (msg : string) : Go St A := fun _ => Panic msg.

(** A call of a client method, which never panics by itself. *)
Definition call {St A} (f : St -> A * St) : Go St A := fun st => Done (f st).

(** [p.Field] on a pointer [p]: the runtime panics when [p] is nil. *)
Definition deref {St A} (p : option A) : Go St A :=
  match p with
  | Some a => ret a
  | None => panic "runtime error: invalid memory address or nil pointer dereference"
  end.

(** [len(s)] of a Go string: its number of bytes. *)
Definition len (s : string) : Z := Z.of_nat (String.length s).

(* ===================================================================== *)
(** * Regular expressions ([regexp.MustCompile], [MatchString])           *)
(* ===================================================================== *)

Module Regexp.

(** An item of a bracket expression: a range [a-z] or a single byte. *)
Inductive item : Type :=
| Range (lo hi : ascii)
| Lit (c : ascii).

Definition item_mem (c : ascii) (i : item) : bool :=
  match i with
  | Range lo hi =>
      (nat_of_ascii lo <=? nat_of_ascii c)%nat && (nat_of_ascii c <=? nat_of_ascii hi)%nat
  | Lit d => Ascii.eqb c d
  end.

Definition class_mem (cls : list item) (c : ascii) : bool :=
  existsb (item_mem c) cls.

(** Abstract syntax of the fragment of RE2 the program uses.  Bounded
    repetition [r{lo,hi}] is the function [Repeat] below. *)
Inductive regex : Type :=
| Void
| Eps
| Class (cls : list item)
| Cat (r s : regex)
| Alt (r s : regex)
| Star (r : regex).

Definition Char (c : ascii) : regex := Class [Lit c].
Definition Opt (r : regex) : regex := Alt r Eps.

(** [r{0,n}] as [(r r{0,n-1})?]. *)
Fixpoint AtMost (n : nat) (r : regex) : regex :=
  match n with
  | O => Eps
  | S n' => Opt (Cat r (AtMost n' r))
  end.

(** [r{lo,hi}]: [lo] copies of [r], then up to [hi - lo] more. *)
Fixpoint Repeat (lo hi : nat) (r : regex) : regex :=
  match lo with
  | O => AtMost hi r
  | S lo' => Cat r (Repeat lo' (Nat.pred hi) r)
  end.

(** The language of an expression, on byte strings. *)
Inductive Matches : regex -> list ascii -> Prop :=
| MEps : Matches Eps []
| MClass cls c : class_mem cls c = true -> Matches (Class cls) [c]
| MCat r s u v : Matches r u -> Matches s v -> Matches (Cat r s) (u ++ v)
| MAltL r s u : Matches r u -> Matches (Alt r s) u
| MAltR r s u : Matches s u -> Matches (Alt r s) u
| MStarNil r : Matches (Star r) []
| MStarApp r u v : Matches r u -> Matches (Star r) v -> Matches (Star r) (u ++ v).

(** The matcher: Brzozowski derivatives, with the trivial simplifications
    that keep the derivative of a bounded repetition small. *)
Fixpoint nullable (r : regex) : bool :=
  match r with
  | Void => false
  | Eps => true
  | Class _ => false
  | Cat r s => nullable r && nullable s
  | Alt r s => nullable r || nullable s
  | Star _ => true
  end.

Definition cat (r s : regex) : regex :=
  match r, s with
  | Void, _ => Void
  | _, Void => Void
  | Eps, _ => s
  | _, Eps => r
  | _, _ => Cat r s
  end.

Definition alt (r s : regex) : regex :=
  match r, s with
  | Void, _ => s
  | _, Void => r
  | _, _ => Alt r s
  end.

Fixpoint deriv (c : ascii) (r : regex) : regex :=
  match r with
  | Void => Void
  | Eps => Void
  | Class cls => if class_mem cls c then Eps else Void
  | Cat r s =>
      if nullable r then alt (cat (deriv c r) s) (deriv c s)
      else cat (deriv c r) s
  | Alt r s => alt (deriv c r) (deriv c s)
  | Star r => cat (deriv c r) (Star r)
  end.

Fixpoint matchb (r : regex) (w : list ascii) : bool :=
  match w with
  | [] => nullable r
  | c :: w' => matchb (deriv c r) w'
  end.

(** [re.MatchString(s)] for an expression anchored by [^] and [$]: the
    whole string belongs to the language.  The classes of the program are
    ASCII, so matching bytes and matching UTF-8 runes agree. *)
Definition MatchString (r : regex) (s : string) : bool :=
  matchb r (list_ascii_of_string s).

End Regexp.

(* ===================================================================== *)
(** * The record and the request and response envelopes                   *)
(* ===================================================================== *)

(** [type User struct], declared with the same fields and the same tags
    ([email], [firstName], [lastName]) in [package main] and in
    [package user]. *)
Record User : Type := mkUser {
  Email : string;
  FirstName : string;
  LastName : string;
}.

(** [User{}]: the zero value. *)
Definition zeroUser : User := mkUser "" "" "".

(** [events.APIGatewayProxyRequest], the fields the program reads (and
    the path, which it never reads). *)
Module APIGatewayProxyRequest.
Record t : Type := mk {
  HTTPMethod : string;
  Path : string;
  QueryStringParameters : gmap string string;
  Body : string;
}.
End APIGatewayProxyRequest.

(** [events.APIGatewayProxyResponse], the fields the program sets. *)
Module APIGatewayProxyResponse.
Record t : Type := mk {
  StatusCode : Z;
  Headers : gmap string string;
  Body : string;
}.
End APIGatewayProxyResponse.

(** [m[k]] on a Go [map[string]string]: the zero value when [k] is absent
    (or the map is nil). *)
Definition index (m : gmap string string) (k : string) : string :=
  default "" (m !! k).

(** [net/http] status codes. *)
Definition StatusOK : Z := 200.
Definition StatusCreated : Z := 201.
Definition StatusBadRequest : Z := 400.
Definition StatusMethodNotAllowed : Z := 405.
Definition StatusUnprocessableEntity : Z := 422.

(* ===================================================================== *)
(** * The DynamoDB client interface ([dynamodbiface.DynamoDBAPI])         *)
(* ===================================================================== *)

Module dynamodb.

(** [dynamodb.AttributeValue].  The SDK type is a struct with one optional
    field per kind; the service sets exactly one of them, so the value is
    a tagged union here. *)
#[warnings="-register-all"]
Inductive AttributeValue : Type :=
| AV_B (b : list ascii)
| AV_BOOL (b : bool)
| AV_BS (bs : list (list ascii))
| AV_L (l : list AttributeValue)
| AV_M (m : list (string * AttributeValue))
| AV_N (n : string)
| AV_NS (ns : list string)
| AV_NULL (b : bool)
| AV_S (s : string)
| AV_SS (ss : list string).

(** [map[string]*dynamodb.AttributeValue]: an item or a key. *)
Abbreviation AttrMap := (gmap string AttributeValue).

Record GetItemInput : Type := mkGetItemInput {
  GetItemInput_Key : AttrMap;
  GetItemInput_TableName : string;
}.

(** [Item] is nil (here [None]) when the table has no item with the key. *)
Record GetItemOutput : Type := mkGetItemOutput {
  GetItemOutput_Item : option AttrMap;
}.

(** No [Limit], [ExclusiveStartKey] or filter is ever set by the program. *)
Record ScanInput : Type := mkScanInput {
  ScanInput_TableName : string;
}.

Record ScanOutput : Type := mkScanOutput {
  ScanOutput_Items : list AttrMap;
  ScanOutput_Count : Z;
  ScanOutput_ScannedCount : Z;
  ScanOutput_LastEvaluatedKey : option AttrMap;
}.

Record PutItemInput : Type := mkPutItemInput {
  PutItemInput_Item : AttrMap;
  PutItemInput_TableName : string;
}.

Record PutItemOutput : Type := mkPutItemOutput {
  PutItemOutput_Attributes : option AttrMap;
}.

Record DeleteItemInput : Type := mkDeleteItemInput {
  DeleteItemInput_Key : AttrMap;
  DeleteItemInput_TableName : string;
}.

Record DeleteItemOutput : Type := mkDeleteItemOutput {
  DeleteItemOutput_Attributes : option AttrMap;
}.

End dynamodb.
Import dynamodb.

(** The four methods of [dynamodbiface.DynamoDBAPI] the program calls.  A
    client is an implementation over some state [St] of the remote table;
    a call returns its output or an error, and the next state. *)
Class DynamoDBAPI (St : Type) : Type := {
  GetItem : GetItemInput -> St -> res GetItemOutput * St;
  Scan : ScanInput -> St -> res ScanOutput * St;
  PutItem : PutItemInput -> St -> res PutItemOutput * St;
  DeleteItem : DeleteItemInput -> St -> res DeleteItemOutput * St;
}.

(* ===================================================================== *)
(** * The attribute codec ([dynamodbattribute]) on [User]                 *)
(* ===================================================================== *)

Module dynamodbattribute.

(** The encoder on a field of kind string, with the SDK's defaults: the
    empty string is written as [NULL: true] ([NullEmptyString]). *)
Definition encodeString (s : string) : AttributeValue :=
  if (len s =? 0) then AV_NULL true else AV_S s.

(** [MarshalMap(user)]: one attribute per exported field, named by the
    field's [json] tag.  It cannot fail on a struct of strings; the result
    type keeps the error the callers test. *)
Definition MarshalMap (u : User) : res AttrMap :=
  Ok (<["email" := encodeString (Email u)]>
      (<["firstName" := encodeString (FirstName u)]>
      (<["lastName" := encodeString (LastName u)]> ∅))).

(** The decoder on a field of kind string holding [old]: a string or a
    number is stored, [NULL] resets the field, an empty collection leaves
    it alone, and any other kind is an [UnmarshalTypeError]. *)
Definition decodeString (av : AttributeValue) (old : string) : res string :=
  match av with
  | AV_NULL _ => Ok ""
  | AV_S s => Ok s
  | AV_N n => Ok n
  | AV_BOOL _ => Err "cannot unmarshal bool into Go value of type string"
  | AV_B [] => Ok old
  | AV_B _ => Err "cannot unmarshal binary into Go value of type string"
  | AV_BS [] => Ok old
  | AV_BS _ => Err "cannot unmarshal binary set into Go value of type string"
  | AV_L [] => Ok old
  | AV_L _ => Err "cannot unmarshal list into Go value of type string"
  | AV_M [] => Ok old
  | AV_M _ => Err "cannot unmarshal map into Go value of type string"
  | AV_NS [] => Ok old
  | AV_NS _ => Err "cannot unmarshal number set into Go value of type string"
  | AV_SS [] => Ok old
  | AV_SS _ => Err "cannot unmarshal string set into Go value of type string"
  end.

(** One field of the struct: absent attributes leave the field alone. *)
Definition decodeField (m : AttrMap) (name : string) (old : string) : res string :=
  match m !! name with
  | None => Ok old
  | Some av => decodeString av old
  end.

(** [UnmarshalMap(m, &item)] where [item] is a [User]: a nil map decodes
    nothing and reports no error.  Attribute names are looked up as
    written by [MarshalMap]. *)
Definition UnmarshalMap (m : option AttrMap) (item : User) : res User :=
  match m with
  | None => Ok item
  | Some m =>
      match decodeField m "email" (Email item) with
      | Err e => Err e
      | Ok email =>
          match decodeField m "firstName" (FirstName item) with
          | Err e => Err e
          | Ok firstName =>
              match decodeField m "lastName" (LastName item) with
              | Err e => Err e
              | Ok lastName => Ok (mkUser email firstName lastName)
              end
          end
      end
  end.

End dynamodbattribute.
Import dynamodbattribute.

(* ===================================================================== *)
(** * [encoding/json] as the program uses it                              *)
(* ===================================================================== *)

(** [ErrorBody] of [package main]: [{ "error": msg }], the member omitted
    when the pointer is nil. *)
Record ErrorBody : Type := mkErrorBody {
  ErrorMsg : option string;
}.

(** The values handed to [json.Marshal], other than the nil interface. *)
Inductive value : Type :=
| VErrorBody (e : ErrorBody)
| VUser (u : User)
| VScanOutput (o : ScanOutput)
| VDeleteItemOutput (o : DeleteItemOutput).

(** The decoder and the encoder of the standard library are taken as an
    interface: [json_Unmarshal body] is [json.Unmarshal([]byte(body), &user)]
    on a zero [user], and [json_Marshal_value v] is [json.Marshal(v)] on a
    value that is not nil. *)
Class EncodingJSON : Type := {
  json_Unmarshal : string -> res User;
  json_Marshal_value : value -> res string;
}.

(** [json.Marshal(body)] on an [interface{}]: the nil interface is encoded
    as the four bytes [null]. *)
Definition json_Marshal `{EncodingJSON} (body : option value) : res string :=
  match body with
  | None => Ok "null"
  | Some v => json_Marshal_value v
  end.

(* ===================================================================== *)
(** * [package main]                                                      *)
(* ===================================================================== *)

Module Main.
Import Regexp.

Definition tableName : string := "LambdaInGoUser".

Definition ErrorInvalidUserData : string := "Invalid User Data".
Definition ErrorMethodNotAllowed : string := "Method Not Allowed".
Definition ErrorFailedToUnmarshalRecord : string := "Failed to unmarshal record".
Definition ErrorInvalidEmail : string := "Invalid Email".
Definition ErrorFailedToFetchRecord : string := "Failed to fetch record".
Definition ErrorCouldNotMarshalItem : string := "Could not marshal item".
Definition ErrorCouldNotDeleteItem : string := "Could not delete item".
Definition ErrorCouldNotDynamoPutItem : string := "Could not Dynamo Put Item Error".
Definition ErrorUserAlreadyExists : string := "User already exists".
Definition ErrorUserDoesNotExists : string := "User does not exist".

(** [ErrorBody{&msg}] as a response body. *)
Definition errorBody (msg : string) : option value :=
  Some (VErrorBody (mkErrorBody (Some msg))).

(** ** The validator *)

Definition alnum : list item :=
  [Range "a" "z"; Range "A" "Z"; Range "0" "9"].

(** [[a-zA-Z0-9.!#$%&'*+/=?^_`{|}~-]] *)
Definition localClass : list item :=
  alnum ++ map Lit (list_ascii_of_string ".!#$%&'*+/=?^_`{|}~-").

(** [[a-zA-Z0-9-]] *)
Definition alnumHyphen : list item := alnum ++ [Lit "-"].

(** [[a-zA-Z0-9](?:[a-zA-Z0-9-]{0,61}[a-zA-Z0-9])?] *)
Definition label : regex :=
  Cat (Class alnum) (Opt (Cat (Repeat 0 61 (Class alnumHyphen)) (Class alnum))).

(** A label, then [(?:\.label)*]. *)
Definition domain : regex :=
  Cat label (Star (Cat (Char ".") label)).

(** [[...]{1,64}] *)
Definition localPart : regex := Repeat 1 64 (Class localClass).

(** The expression compiled in [isEmailValid], between [^] and [$]. *)
Definition rxEmail : regex :=
  Cat localPart (Cat (Char "@") domain).

Definition isEmailValid (email : string) : bool :=
  if (len email <? 3) || (len email >? 254) || negb (MatchString rxEmail email)
  then false
  else true.

(** ** The handlers

    The store client is the package variable [dynaClient], set once in
    [main] before the handler is registered; here it is the instance of
    [DynamoDBAPI] the handlers are run with.  Calls to [log] write to the
    standard error stream and play no part in a result; they are left
    out. *)

Section Handlers.
Context {St : Type} `{dynaClient : DynamoDBAPI St} `{EncodingJSON}.

Abbreviation Request := APIGatewayProxyRequest.t.
Abbreviation Response := APIGatewayProxyResponse.t.

(** A handler returns a pointer to an [events.APIGatewayProxyResponse] and
    an [error]; the pointer is never nil. *)
Definition reply : Type := Response * option error.

(** A marshalling error is dropped and leaves the body empty. *)
Definition APIResponse (status : Z) (body : option value) : Response :=
  let stringBody :=
    match json_Marshal body with
    | Ok b => b
    | Err _ => ""
    end in
  APIGatewayProxyResponse.mk status {["Content-Type" := "application/json"]} stringBody.

(** [return APIResponse(status, body), nil] *)
Definition respond (status : Z) (body : option value) : Go St reply :=
  mret (APIResponse status body, None).

(** [fetchUser] returns two pointers, to a [User] and to an [ErrorBody];
    a nil pointer is [None]. *)
Definition fetchUser (email : string) : Go St (option User * option ErrorBody) :=
  let input := mkGetItemInput {["email" := AV_S email]} tableName in
  r ← call (GetItem input);
  match r with
  | Err _ => mret (None, Some (mkErrorBody (Some ErrorFailedToFetchRecord)))
  | Ok result =>
      match UnmarshalMap (GetItemOutput_Item result) zeroUser with
      | Err _ => mret (None, Some (mkErrorBody (Some ErrorFailedToUnmarshalRecord)))
      | Ok item => mret (Some item, None)
      end
  end.

Definition showUser (email : string) : Go St reply :=
  '(user, err) ← fetchUser email;
  match err with
  | Some e => respond StatusBadRequest (Some (VErrorBody e))
  | None =>
      match user with
      | Some u => respond StatusOK (Some (VUser u))
      | None => respond StatusOK None (* a nil pointer is encoded as [null] too *)
      end
  end.

Definition listUsers : Go St reply :=
  let input := mkScanInput tableName in
  r ← call (Scan input);
  match r with
  | Err _ => respond StatusBadRequest (errorBody ErrorFailedToFetchRecord)
  | Ok result => respond StatusOK (Some (VScanOutput result))
  end.

Definition getUser (req : Request) : Go St reply :=
  let email := index (APIGatewayProxyRequest.QueryStringParameters req) "email" in
  if (len email >? 0) then showUser email else listUsers.

Definition createUser (req : Request) : Go St reply :=
  match json_Unmarshal (APIGatewayProxyRequest.Body req) with
  | Err _ => respond StatusUnprocessableEntity (errorBody ErrorInvalidUserData)
  | Ok user =>
      if negb (isEmailValid (Email user))
      then respond StatusBadRequest (errorBody ErrorInvalidEmail)
      else
        '(currentUser, _) ← fetchUser (Email user);
        cur ← deref currentUser;
        if negb (len (Email cur) =? 0)
        then respond StatusBadRequest (errorBody ErrorUserAlreadyExists)
        else
          match MarshalMap user with
          | Err _ => respond StatusBadRequest (errorBody ErrorCouldNotMarshalItem)
          | Ok av =>
              let input := mkPutItemInput av tableName in
              r ← call (PutItem input);
              match r with
              | Err _ => respond StatusBadRequest (errorBody ErrorCouldNotDynamoPutItem)
              | Ok _ => respond StatusCreated None
              end
          end
  end.

Definition updateUser (req : Request) : Go St reply :=
  match json_Unmarshal (APIGatewayProxyRequest.Body req) with
  | Err _ => respond StatusUnprocessableEntity (errorBody ErrorInvalidEmail)
  | Ok user =>
      '(currentUser, _) ← fetchUser (Email user);
      cur ← deref currentUser;
      if (len (Email cur) =? 0)
      then respond StatusBadRequest (errorBody ErrorUserDoesNotExists)
      else
        match MarshalMap user with
        | Err _ => respond StatusBadRequest (errorBody ErrorCouldNotMarshalItem)
        | Ok av =>
            let input := mkPutItemInput av tableName in
            r ← call (PutItem input);
            match r with
            | Err _ => respond StatusBadRequest (errorBody ErrorCouldNotDynamoPutItem)
            | Ok _ => respond StatusCreated None
            end
        end
  end.

Definition deleteUser (req : Request) : Go St reply :=
  let email := index (APIGatewayProxyRequest.QueryStringParameters req) "email" in
  let input := mkDeleteItemInput {["email" := AV_S email]} tableName in
  r ← call (DeleteItem input);
  match r with
  | Err _ => respond StatusBadRequest (errorBody ErrorCouldNotDeleteItem)
  | Ok result => respond StatusOK (Some (VDeleteItemOutput result))
  end.

Definition handler (req : Request) : Go St reply :=
  let method := APIGatewayProxyRequest.HTTPMethod req in
  if String.eqb method "GET" then getUser req
  else if String.eqb method "POST" then createUser req
  else if String.eqb method "PUT" then updateUser req
  else if String.eqb method "DELETE" then deleteUser req
  else respond StatusMethodNotAllowed (errorBody ErrorMethodNotAllowed).

End Handlers.
End Main.

(* ===================================================================== *)
(** * [package user] ([pkg/user/user.go])                                 *)
(* ===================================================================== *)

Module user.

Definition ErrorFailedToUnmarshalRecord : string := "failed to unmarshal record".
Definition ErrorFailedToFetchRecord : string := "failed to fetch record".
Definition ErrorInvalidUserData : string := "invalid user data".
Definition ErrorInvalidEmail : string := "invalid email".
Definition ErrorCouldNotMarshalItem : string := "could not marshal item".
Definition ErrorCouldNotDeleteItem : string := "could not delete item".
Definition ErrorCouldNotDynamoPutItem : string := "could not dynamo put item error".
Definition ErrorUserAlreadyExists : string := "user.User already exists".
Definition ErrorUserDoesNotExists : string := "user.User does not exist".

Section Functions.
Context {St : Type} `{dynaClient : DynamoDBAPI St} `{EncodingJSON}.

Abbreviation Request := APIGatewayProxyRequest.t.

(** The package calls [isEmailValid] without declaring it in [user.go];
    the function is a parameter of the package here. *)
Variable isEmailValid : string -> bool.

(** [errors.New(msg)] *)
Definition New (msg : string) : option error := Some msg.

Definition FetchUser (email tableName : string) : Go St (option User * option error) :=
  let input := mkGetItemInput {["email" := AV_S email]} tableName in
  r ← call (GetItem input);
  match r with
  | Err _ => mret (None, New ErrorFailedToFetchRecord)
  | Ok result =>
      match UnmarshalMap (GetItemOutput_Item result) zeroUser with
      | Err _ => mret (None, New ErrorFailedToUnmarshalRecord)
      | Ok item => mret (Some item, None)
      end
  end.

Definition FetchUsers (tableName : string) : Go St (option ScanOutput * option error) :=
  let input := mkScanInput tableName in
  r ← call (Scan input);
  match r with
  | Err _ => mret (None, New ErrorFailedToFetchRecord)
  | Ok result => mret (Some result, None)
  end.

Definition CreateUser (req : Request) (tableName : string)
  : Go St (option User * option error) :=
  match json_Unmarshal (APIGatewayProxyRequest.Body req) with
  | Err _ => mret (None, New ErrorInvalidUserData)
  | Ok u =>
      if negb (isEmailValid (Email u))
      then mret (None, New ErrorInvalidEmail)
      else
        '(currentUser, _) ← FetchUser (Email u) tableName;
        cur ← deref currentUser;
        if negb (len (Email cur) =? 0)
        then mret (None, New ErrorUserAlreadyExists)
        else
          match MarshalMap u with
          | Err _ => mret (None, New ErrorCouldNotMarshalItem)
          | Ok av =>
              let input := mkPutItemInput av tableName in
              r ← call (PutItem input);
              match r with
              | Err _ => mret (None, New ErrorCouldNotDynamoPutItem)
              | Ok _ => mret (Some u, None)
              end
          end
  end.

Definition UpdateUser (req : Request) (tableName : string)
  : Go St (option User * option error) :=
  match json_Unmarshal (APIGatewayProxyRequest.Body req) with
  | Err _ => mret (None, New ErrorInvalidEmail)
  | Ok u =>
      '(currentUser, _) ← FetchUser (Email u) tableName;
      cur ← deref currentUser;
      if (len (Email cur) =? 0)
      then mret (None, New ErrorUserDoesNotExists)
      else
        match MarshalMap u with
        | Err _ => mret (None, New ErrorCouldNotMarshalItem)
        | Ok av =>
            let input := mkPutItemInput av tableName in
            r ← call (PutItem input);
            match r with
            | Err _ => mret (None, New ErrorCouldNotDynamoPutItem)
            | Ok _ => mret (Some u, None)
            end
        end
  end.

Definition DeleteUser (req : Request) (tableName : string) : Go St (option error) :=
  let email := index (APIGatewayProxyRequest.QueryStringParameters req) "email" in
  let input := mkDeleteItemInput {["email" := AV_S email]} tableName in
  r ← call (DeleteItem input);
  match r with
  | Err _ => mret (New ErrorCouldNotDeleteItem)
  | Ok _ => mret None
  end.

End Functions.
End user.

(* ===================================================================== *)
(** * An in-memory table                                                  *)
(* ===================================================================== *)

(** A client that keeps one table in memory, keyed by the string attribute
    [email], with the service's documented behaviour: a key that is not a
    non-empty string is rejected, reading an absent key succeeds with no
    item, writing replaces the whole item, deleting an absent key
    succeeds.  [faults] scripts transport failures: each call consumes one
    flag and fails, leaving the table alone, when the flag is [true]. *)
Module MemStore.

Record t : Type := mk {
  name : string;
  rows : gmap string AttrMap;
  faults : list bool;
}.

Definition keyOf (m : AttrMap) : option string :=
  match m !! "email" with
  | Some (AV_S s) => if String.eqb s "" then None else Some s
  | _ => None
  end.

(** The part common to the four calls: the fault script, then the table
    name. *)
Definition attempt {A} (tbl : string) (run : t -> res A * t) (st : t) : res A * t :=
  match faults st with
  | true :: fs => (Err "RequestError: send request failed", mk (name st) (rows st) fs)
  | flags =>
      let st' := mk (name st) (rows st) (tail flags) in
      if String.eqb tbl (name st) then run st'
      else (Err "ResourceNotFoundException", st')
  end.

Definition getItem (input : GetItemInput) : t -> res GetItemOutput * t :=
  attempt (GetItemInput_TableName input) (fun st =>
    match keyOf (GetItemInput_Key input) with
    | None => (Err "ValidationException", st)
    | Some k => (Ok (mkGetItemOutput (rows st !! k)), st)
    end).

Definition scan (input : ScanInput) : t -> res ScanOutput * t :=
  attempt (ScanInput_TableName input) (fun st =>
    let items := (map_to_list (rows st)).*2 in
    let n := Z.of_nat (length items) in
    (Ok (mkScanOutput items n n None), st)).

Definition putItem (input : PutItemInput) : t -> res PutItemOutput * t :=
  attempt (PutItemInput_TableName input) (fun st =>
    match keyOf (PutItemInput_Item input) with
    | None => (Err "ValidationException", st)
    | Some k =>
        (Ok (mkPutItemOutput None),
         mk (name st) (<[k := PutItemInput_Item input]> (rows st)) (faults st))
    end).

Definition deleteItem (input : DeleteItemInput) : t -> res DeleteItemOutput * t :=
  attempt (DeleteItemInput_TableName input) (fun st =>
    match keyOf (DeleteItemInput_Key input) with
    | None => (Err "ValidationException", st)
    | Some k =>
        (Ok (mkDeleteItemOutput None),
         mk (name st) (delete k (rows st)) (faults st))
    end).

#[global] Instance client : DynamoDBAPI t := {
  GetItem := getItem;
  Scan := scan;
  PutItem := putItem;
  DeleteItem := deleteItem;
}.

(** The program's table with the given rows and no failure ahead. *)
Definition reliable (r : gmap string AttrMap) : t := mk Main.tableName r [].

End MemStore.

(* ===================================================================== *)
(** * A small JSON codec                                                  *)
(* ===================================================================== *)

(** An instance of [EncodingJSON] for running the handlers: it reads and
    writes objects whose strings need no escaping, in the member order of
    the struct. *)
Module TestJSON.

Definition quote : ascii := "034"%char.

Definition quoted (s : string) : string :=
  String quote (s ++ String quote "").

(** Printable ASCII other than the quote, the backslash and the bytes the
    encoder escapes for HTML. *)
Definition plainChar (c : ascii) : bool :=
  let n := nat_of_ascii c in
  (32 <=? n)%nat && (n <=? 126)%nat
  && negb (Ascii.eqb c quote) && negb (Ascii.eqb c "\")
  && negb (Ascii.eqb c "<") && negb (Ascii.eqb c ">") && negb (Ascii.eqb c "&").

Definition plain (s : string) : bool :=
  forallb plainChar (list_ascii_of_string s).

Definition member (k v : string) : string := quoted k ++ ":" ++ quoted v.

Definition userJSON (u : User) : string :=
  "{" ++ member "email" (Email u) ++ "," ++ member "firstName" (FirstName u)
      ++ "," ++ member "lastName" (LastName u) ++ "}".

(** The pieces of [s] between occurrences of the quote. *)
Fixpoint pieces (s : string) (cur : string) : list string :=
  match s with
  | EmptyString => [cur]
  | String c s' =>
      if Ascii.eqb c quote then cur :: pieces s' ""
      else pieces s' (cur ++ String c "")
  end.

Definition unmarshal (body : string) : res User :=
  match pieces body "" with
  | ["{"; "email"; ":"; e; ","; "firstName"; ":"; f; ","; "lastName"; ":"; l; "}"] =>
      if plain e && plain f && plain l then Ok (mkUser e f l)
      else Err "invalid character in string literal"
  | _ => Err "invalid character looking for beginning of value"
  end.

Definition marshal (v : value) : res string :=
  match v with
  | VErrorBody (mkErrorBody None) => Ok "{}"
  | VErrorBody (mkErrorBody (Some msg)) => Ok ("{" ++ member "error" msg ++ "}")
  | VUser u => Ok (userJSON u)
  | VScanOutput o => Ok ("{" ++ quoted "Count" ++ ":" ++ pretty (ScanOutput_Count o) ++ "}")
  | VDeleteItemOutput _ => Ok ("{" ++ quoted "Attributes" ++ ":null}")
  end.

#[global] Instance codec : EncodingJSON := {
  json_Unmarshal := unmarshal;
  json_Marshal_value := marshal;
}.

End TestJSON.

(* ===================================================================== *)
(** * Sample requests                                                     *)
(* ===================================================================== *)

Module Samples.

Definition ann : User := mkUser "a@b.com" "Ann" "Lee".

(** Another record with the same address. *)
Definition ann2 : User := mkUser "a@b.com" "Anna" "Leigh".

(** [ann] in the store's attribute format. *)
Definition annItem : AttrMap :=
  <["email" := AV_S "a@b.com"]>
    (<["firstName" := AV_S "Ann"]> (<["lastName" := AV_S "Lee"]> ∅)).

Definition request (method : string) (query : gmap string string) (body : string)
  : APIGatewayProxyRequest.t :=
  APIGatewayProxyRequest.mk method "/users" query body.

Definition postAnn := request "POST" ∅ (TestJSON.userJSON ann).
Definition postAnn2 := request "POST" ∅ (TestJSON.userJSON ann2).
Definition putAnn := request "PUT" ∅ (TestJSON.userJSON ann).
Definition getAnn := request "GET" {["email" := "a@b.com"]} "".
Definition deleteAnn := request "DELETE" {["email" := "a@b.com"]} "".

(** The program's table, empty, with no failure ahead. *)
Definition emptyTable : MemStore.t := MemStore.reliable ∅.

(** The table after [ann] was created. *)
Definition annTable : MemStore.t := MemStore.reliable {["a@b.com" := annItem]}.

(** The empty table behind a connection whose next call fails. *)
Definition failingTable : MemStore.t := MemStore.mk Main.tableName ∅ [true].

End Samples.

(* ===================================================================== *)
(** * Comparing the two packages                                          *)
(* ===================================================================== *)

(** A handler of [package main] answers with a response; the function of
    [package user] that does the same work returns a record and an error.
    Both fail for one of the reasons below, each package with its own
    message for it. *)
Module Refinement.

Inductive reason : Type :=
| FailedToUnmarshalRecord
| FailedToFetchRecord
| InvalidUserData
| InvalidEmail
| CouldNotMarshalItem
| CouldNotDeleteItem
| CouldNotDynamoPutItem
| UserAlreadyExists
| UserDoesNotExists.

Definition mainMessage (r : reason) : string :=
  match r with
  | FailedToUnmarshalRecord => Main.ErrorFailedToUnmarshalRecord
  | FailedToFetchRecord => Main.ErrorFailedToFetchRecord
  | InvalidUserData => Main.ErrorInvalidUserData
  | InvalidEmail => Main.ErrorInvalidEmail
  | CouldNotMarshalItem => Main.ErrorCouldNotMarshalItem
  | CouldNotDeleteItem => Main.ErrorCouldNotDeleteItem
  | CouldNotDynamoPutItem => Main.ErrorCouldNotDynamoPutItem
  | UserAlreadyExists => Main.ErrorUserAlreadyExists
  | UserDoesNotExists => Main.ErrorUserDoesNotExists
  end.

Definition pkgMessage (r : reason) : string :=
  match r with
  | FailedToUnmarshalRecord => user.ErrorFailedToUnmarshalRecord
  | FailedToFetchRecord => user.ErrorFailedToFetchRecord
  | InvalidUserData => user.ErrorInvalidUserData
  | InvalidEmail => user.ErrorInvalidEmail
  | CouldNotMarshalItem => user.ErrorCouldNotMarshalItem
  | CouldNotDeleteItem => user.ErrorCouldNotDeleteItem
  | CouldNotDynamoPutItem => user.ErrorCouldNotDynamoPutItem
  | UserAlreadyExists => user.ErrorUserAlreadyExists
  | UserDoesNotExists => user.ErrorUserDoesNotExists
  end.

(** A write handler and the package function agree when both panic in the
    same way, or both return with the store in the same state and either
    both succeed, the handler with HTTP 201 and the function with the
    record decoded from the request body, or both fail for the same
    reason, the handler with another status. *)
Definition agrees {St : Type} `{EncodingJSON} (body : string)
    (main : outcome ((APIGatewayProxyResponse.t * option error) * St))
    (pkg : outcome ((option User * option error) * St)) : Prop :=
  match main, pkg with
  | Panic m1, Panic m2 => m1 = m2
  | Done ((resp, e), st1), Done ((u, err), st2) =>
      st2 = st1 ∧ e = None ∧
      ((∃ sent, json_Unmarshal body = Ok sent ∧
                resp = Main.APIResponse 201 None ∧ u = Some sent ∧ err = None) ∨
       (∃ status r, status ≠ 201 ∧
                resp = Main.APIResponse status (Main.errorBody (mainMessage r)) ∧
                u = None ∧ err = Some (pkgMessage r)))
  | _, _ => False
  end.

(** The same for [fetchUser] and [FetchUser], which return the same kind
    of pair. *)
Definition agreesFetch {St : Type}
    (main : outcome ((option User * option ErrorBody) * St))
    (pkg : outcome ((option User * option error) * St)) : Prop :=
  match main, pkg with
  | Panic m1, Panic m2 => m1 = m2
  | Done ((u1, err1), st1), Done ((u2, err2), st2) =>
      st2 = st1 ∧ u2 = u1 ∧
      ((err1 = None ∧ err2 = None ∧ u1 ≠ None) ∨
       (∃ r, err1 = Some (mkErrorBody (Some (mainMessage r))) ∧
             err2 = Some (pkgMessage r) ∧ u1 = None))
  | _, _ => False
  end.

(** The same for the delete handler and [DeleteUser], which returns an
    error only. *)
Definition agreesDelete {St : Type} `{EncodingJSON}
    (main : outcome ((APIGatewayProxyResponse.t * option error) * St))
    (pkg : outcome (option error * St)) : Prop :=
  match main, pkg with
  | Panic m1, Panic m2 => m1 = m2
  | Done ((resp, e), st1), Done (err, st2) =>
      st2 = st1 ∧ e = None ∧
      ((∃ result, resp = Main.APIResponse 200 (Some (VDeleteItemOutput result)) ∧
                  err = None) ∨
       (∃ r, resp = Main.APIResponse 400 (Main.errorBody (mainMessage r)) ∧
             err = Some (pkgMessage r)))
  | _, _ => False
  end.

End Refinement.

(* ===================================================================== *)
(** * Message texts                                                       *)
(* ===================================================================== *)

(** The specification quotes the error messages in lower case, and the two
    packages spell them with different capitals; [reads msg text] says that
    [msg] is [text] up to the case of ASCII letters. *)
Module Text.

Definition toLower (c : ascii) : ascii :=
  let n := nat_of_ascii c in
  if (65 <=? n)%nat && (n <=? 90)%nat then ascii_of_nat (n + 32) else c.

Fixpoint lower (s : string) : string :=
  match s with
  | EmptyString => EmptyString
  | String c s' => String (toLower c) (lower s')
  end.

Definition reads (msg text : string) : Prop := lower msg = lower text.

End Text.

(* ===================================================================== *)
(** * The address syntax, stated without regular expressions              *)
(* ===================================================================== *)

(** What the specification says a valid address is: a local part of 1 to
    64 letters, digits and listed specials, an [@], and a domain of one or
    more labels separated by dots, each label of 1 to 63 letters, digits
    and hyphens that neither starts nor ends with a hyphen; 3 to 254 bytes
    in all.  [Main.isEmailValid] is compared with it below. *)
Module EmailSpec.
Local Open Scope nat_scope.
Local Open Scope list_scope.

Definition oneOf (s : string) (c : ascii) : bool :=
  existsb (Ascii.eqb c) (list_ascii_of_string s).

Definition letterOrDigit : ascii -> bool :=
  oneOf "abcdefghijklmnopqrstuvwxyzABCDEFGHIJKLMNOPQRSTUVWXYZ0123456789".

Definition localChar (c : ascii) : bool :=
  letterOrDigit c || oneOf ".!#$%&'*+/=?^_`{|}~-" c.

Definition labelChar (c : ascii) : bool :=
  letterOrDigit c || Ascii.eqb c "-".

Definition isLocalPart (l : list ascii) : Prop :=
  1 ≤ length l ≤ 64 ∧ Forall (λ c, localChar c = true) l.

Definition isLabel (l : list ascii) : Prop :=
  1 ≤ length l ≤ 63 ∧ Forall (λ c, labelChar c = true) l ∧
  (∃ c, head l = Some c ∧ letterOrDigit c = true) ∧
  (∃ c, last l = Some c ∧ letterOrDigit c = true).

(** A first label followed by dot-prefixed labels. *)
Definition dotted (l : list ascii) (ls : list (list ascii)) : list ascii :=
  l ++ concat (map (cons "."%char) ls).

Definition isDomain (d : list ascii) : Prop :=
  ∃ l ls, d = dotted l ls ∧ isLabel l ∧ Forall isLabel ls.

Definition ValidEmail (email : string) : Prop :=
  3 ≤ String.length email ≤ 254 ∧
  ∃ loc d, list_ascii_of_string email = loc ++ "@"%char :: d ∧
           isLocalPart loc ∧ isDomain d.

(** The number of [@] bytes of a string. *)
Definition countAt (email : string) : nat :=
  length (filter (λ c, c = "@"%char) (list_ascii_of_string email)).

End EmailSpec.

(* ===================================================================== *)
(** * More sample requests                                                *)
(* ===================================================================== *)

Module MoreSamples.
Import Samples.

Definition putAnn2 := request "PUT" ∅ (TestJSON.userJSON ann2).

(** [ann2] in the store's attribute format. *)
Definition ann2Item : AttrMap :=
  <["email" := AV_S "a@b.com"]>
    (<["firstName" := AV_S "Anna"]> (<["lastName" := AV_S "Leigh"]> ∅)).

End MoreSamples.

(* ===================================================================== *)
(** * Tables written by the service                                       *)
(* ===================================================================== *)

Module TableInv.

(** Every row of the table is the encoding of a record, stored under the
    record's address, which is not empty: what the table holds when only
    this service writes to it. *)
Definition written (rows : gmap string AttrMap) : Prop :=
  ∀ k item, rows !! k = Some item →
    k ≠ "" ∧ ∃ u, Email u = k ∧ MarshalMap u = Ok item.

End TableInv.

(* ===================================================================== *)
(** * The matcher decides the language                                    *)
(* ===================================================================== *)

Module RegexpFacts.
Import Regexp.

Local Open Scope nat_scope.
Local Open Scope list_scope.

Ltac invert H := inversion H; subst; clear H.

Lemma Matches_Void w : ¬ Matches Void w.
Proof. intros H. invert H. Qed.

Lemma Matches_Eps w : Matches Eps w ↔ w = [].
Proof. split; intros H; [by invert H | subst; constructor]. Qed.

Lemma Matches_Class cls w :
  Matches (Class cls) w ↔ ∃ c, w = [c] ∧ class_mem cls c = true.
Proof.
  split.
  - intros H. invert H. eauto.
  - intros (c & -> & Hc). by constructor.
Qed.

Lemma Matches_Cat r s w :
  Matches (Cat r s) w ↔ ∃ u v, w = u ++ v ∧ Matches r u ∧ Matches s v.
Proof.
  split.
  - intros H. invert H. eauto.
  - intros (u & v & -> & Hu & Hv). by constructor.
Qed.

Lemma Matches_Alt r s w : Matches (Alt r s) w ↔ Matches r w ∨ Matches s w.
Proof.
  split.
  - intros H. invert H; auto.
  - intros [H | H]; [by apply MAltL | by apply MAltR].
Qed.

Lemma Matches_Opt r w : Matches (Opt r) w ↔ Matches r w ∨ w = [].
Proof. unfold Opt. by rewrite Matches_Alt, Matches_Eps. Qed.

(** A non-empty word of [r*] starts with a non-empty word of [r]. *)
Lemma Matches_Star_cons r c w :
  Matches (Star r) (c :: w) →
  ∃ u v, w = u ++ v ∧ Matches r (c :: u) ∧ Matches (Star r) v.
Proof.
  intros H. remember (Star r) as e eqn:He. remember (c :: w) as cw eqn:Hw.
  revert c w Hw. induction H; intros c0 w0 Hw; try discriminate.
  injection He as ->. destruct u as [|d u]; simpl in Hw.
  - by apply IHMatches2.
  - injection Hw as -> <-. eauto.
Qed.

Lemma cat_spec r s w : Matches (cat r s) w ↔ Matches (Cat r s) w.
Proof.
  rewrite Matches_Cat. split.
  - intros H.
    destruct r; try (by apply Matches_Void in H);
      destruct s; simpl in H; try (by apply Matches_Void in H);
      try (by apply Matches_Cat in H);
      try (by exists [], w; repeat split; [constructor | done]);
      by exists w, []; rewrite app_nil_r; repeat split; [done | constructor].
  - intros (u & v & -> & Hu & Hv).
    destruct r; try (by apply Matches_Void in Hu);
      destruct s; simpl; try (by apply Matches_Void in Hv);
      try (apply Matches_Eps in Hu as ->);
      try (apply Matches_Eps in Hv as ->);
      rewrite ?app_nil_r; simpl; try done;
      by constructor.
Qed.

Lemma alt_spec r s w : Matches (alt r s) w ↔ Matches (Alt r s) w.
Proof.
  rewrite Matches_Alt. split.
  - intros H.
    destruct r; simpl in H; auto;
      destruct s; simpl in H; auto; by apply Matches_Alt in H.
  - intros [H | H].
    + destruct r; try (by apply Matches_Void in H);
        destruct s; simpl; auto; by apply MAltL.
    + destruct r; simpl; auto;
        destruct s; try (by apply Matches_Void in H); by apply MAltR.
Qed.

Lemma nullable_spec r : nullable r = true ↔ Matches r [].
Proof.
  induction r as [| |cls|r IHr s IHs|r IHr s IHs|r IHr]; simpl.
  - split; [done | intros H; by apply Matches_Void in H].
  - split; [constructor | done].
  - split; [done | intros H; invert H].
  - rewrite andb_true_iff, IHr, IHs, Matches_Cat. split.
    + intros [Hr Hs]. by exists [], [].
    + intros (u & v & Huv & Hu & Hv).
      symmetry in Huv. apply app_eq_nil in Huv as [-> ->]. done.
  - by rewrite orb_true_iff, IHr, IHs, Matches_Alt.
  - split; [constructor | done].
Qed.

Lemma deriv_spec c r w : Matches (deriv c r) w ↔ Matches r (c :: w).
Proof.
  revert w.
  induction r as [| |cls|r IHr s IHs|r IHr s IHs|r IHr]; intros w; simpl.
  - split; intros H; by apply Matches_Void in H.
  - split; intros H; [by apply Matches_Void in H | invert H].
  - rewrite Matches_Class. destruct (class_mem cls c) eqn:Hc.
    + rewrite Matches_Eps. split.
      * intros ->. eauto.
      * intros (d & Hd & _). by injection Hd.
    + split; [intros H; by apply Matches_Void in H |].
      intros (d & Hd & Hm). injection Hd as -> ->. congruence.
  - assert (Hcat : Matches (cat (deriv c r) s) w ↔
                   ∃ u v, w = u ++ v ∧ Matches r (c :: u) ∧ Matches s v).
    { rewrite cat_spec, Matches_Cat.
      split; intros (u & v & -> & Hu & Hv); exists u, v; by rewrite <- ?IHr in *. }
    rewrite Matches_Cat.
    destruct (nullable r) eqn:Hn.
    + rewrite alt_spec, Matches_Alt, Hcat, IHs. split.
      * intros [(u & v & -> & Hu & Hv) | Hs].
        -- by exists (c :: u), v.
        -- exists [], (c :: w). repeat split; [by apply nullable_spec | done].
      * intros (u & v & Huv & Hu & Hv). destruct u as [|d u]; simpl in Huv.
        -- subst v. by right.
        -- injection Huv as <- ->. left. eauto.
    + rewrite Hcat. split.
      * intros (u & v & -> & Hu & Hv). by exists (c :: u), v.
      * intros (u & v & Huv & Hu & Hv). destruct u as [|d u]; simpl in Huv.
        -- apply nullable_spec in Hu. congruence.
        -- injection Huv as <- ->. eauto.
  - by rewrite alt_spec, !Matches_Alt, IHr, IHs.
  - rewrite cat_spec, Matches_Cat. split.
    + intros (u & v & -> & Hu & Hv). apply IHr in Hu.
      by apply (MStarApp r (c :: u) v).
    + intros H. apply Matches_Star_cons in H as (u & v & -> & Hu & Hv).
      exists u, v. by rewrite IHr.
Qed.

Lemma matchb_spec r w : matchb r w = true ↔ Matches r w.
Proof.
  revert r. induction w as [|c w IH]; intros r; simpl.
  - apply nullable_spec.
  - by rewrite IH, deriv_spec.
Qed.

End RegexpFacts.

(* ===================================================================== *)
(** * The validator                                                       *)
(* ===================================================================== *)

Module ValidatorFacts.
Import Regexp RegexpFacts EmailSpec.
Local Open Scope nat_scope.
Local Open Scope list_scope.

Lemma Matches_AtMost n cls w :
  Matches (AtMost n (Class cls)) w ↔
  length w ≤ n ∧ Forall (λ c, class_mem cls c = true) w.
Proof.
  revert w. induction n as [|n IH]; intros w; simpl.
  - rewrite Matches_Eps. split.
    + intros ->. split; [done | constructor].
    + intros [Hlen _]. destruct w; [done | simpl in Hlen; lia].
  - rewrite Matches_Opt, Matches_Cat. split.
    + intros [(u & v & -> & Hu & Hv) | ->]; [| split; [simpl; lia | constructor]].
      apply Matches_Class in Hu as (c & -> & Hc). apply IH in Hv as [Hlen Hall].
      split; [simpl; lia | by constructor].
    + intros [Hlen Hall]. destruct w as [|c w]; [by right | left].
      apply Forall_cons in Hall as [Hc Hall]. simpl in Hlen.
      exists [c], w. repeat split.
      * apply Matches_Class. eauto.
      * apply IH. split; [lia | done].
Qed.

Lemma Matches_Repeat lo hi cls w :
  lo ≤ hi →
  Matches (Repeat lo hi (Class cls)) w ↔
  lo ≤ length w ≤ hi ∧ Forall (λ c, class_mem cls c = true) w.
Proof.
  revert hi w. induction lo as [|lo IH]; intros hi w Hle; simpl.
  - rewrite Matches_AtMost. split; intros [? ?]; split; (lia || done).
  - rewrite Matches_Cat. split.
    + intros (u & v & -> & Hu & Hv).
      apply Matches_Class in Hu as (c & -> & Hc).
      apply IH in Hv as [Hlen Hall]; [| lia].
      split; [simpl; lia | by constructor].
    + intros [Hlen Hall]. destruct w as [|c w]; [simpl in Hlen; lia |].
      apply Forall_cons in Hall as [Hc Hall]. simpl in Hlen.
      exists [c], w. repeat split.
      * apply Matches_Class. eauto.
      * apply IH; [lia |]. split; [lia | done].
Qed.

(** The bracket expressions of the program are the character sets of the
    specification: checked on each of the 256 bytes. *)
Lemma alnum_spec c : class_mem Main.alnum c = letterOrDigit c.
Proof. by destruct c as [[] [] [] [] [] [] [] []]. Qed.

Lemma alnumHyphen_spec c : class_mem Main.alnumHyphen c = labelChar c.
Proof. by destruct c as [[] [] [] [] [] [] [] []]. Qed.

Lemma localClass_spec c : class_mem Main.localClass c = localChar c.
Proof. by destruct c as [[] [] [] [] [] [] [] []]. Qed.

Lemma letterOrDigit_labelChar c : letterOrDigit c = true → labelChar c = true.
Proof. unfold labelChar. intros ->. done. Qed.

Lemma Matches_localPart w : Matches Main.localPart w ↔ isLocalPart w.
Proof.
  unfold Main.localPart, isLocalPart. rewrite Matches_Repeat by lia.
  by setoid_rewrite localClass_spec.
Qed.

Lemma Matches_label w : Matches Main.label w ↔ isLabel w.
Proof.
  unfold Main.label, isLabel. rewrite Matches_Cat. split.
  - intros (u & v & -> & Hu & Hv).
    apply Matches_Class in Hu as (c & -> & Hc). rewrite alnum_spec in Hc.
    apply Matches_Opt in Hv as [Hv | ->].
    + apply Matches_Cat in Hv as (m & z & -> & Hm & Hz).
      apply Matches_Repeat in Hm as [Hlen Hall]; [| lia].
      apply Matches_Class in Hz as (d & -> & Hd). rewrite alnum_spec in Hd.
      setoid_rewrite alnumHyphen_spec in Hall.
      repeat split.
      * simpl. lia.
      * simpl. rewrite length_app. simpl. lia.
      * constructor; [by apply letterOrDigit_labelChar |].
        apply Forall_app. split; [done |].
        constructor; [by apply letterOrDigit_labelChar | constructor].
      * exists c. done.
      * exists d. split; [| done].
        change ([c] ++ m ++ [d]) with ((c :: m) ++ [d]). apply last_snoc.
    + repeat split; simpl; try lia.
      * constructor; [by apply letterOrDigit_labelChar | constructor].
      * eauto.
      * eauto.
  - intros ([Hlo Hhi] & Hall & (c & Hhd & Hc) & (d & Hlast & Hd)).
    destruct w as [|c' w]; [simpl in Hlo; lia |].
    simpl in Hhd. injection Hhd as ->.
    exists [c], w. repeat split.
    + apply Matches_Class. exists c. by rewrite alnum_spec.
    + apply Matches_Opt.
      destruct (decide (w = [])) as [-> | Hne]; [by right | left].
      destruct (exists_last Hne) as (m & z & ->).
      change (c :: m ++ [z]) with ((c :: m) ++ [z]) in *.
      rewrite last_snoc in Hlast. injection Hlast as ->.
      apply Forall_app in Hall as [Hall _]. apply Forall_cons in Hall as [_ Hall].
      rewrite length_app in Hhi. simpl in Hhi.
      apply Matches_Cat. exists m, [d]. repeat split.
      * apply Matches_Repeat; [lia |]. split; [lia |].
        by setoid_rewrite alnumHyphen_spec.
      * apply Matches_Class. exists d. by rewrite alnum_spec.
Qed.

Lemma Matches_dot w : Matches (Char ".") w ↔ w = ["."%char].
Proof.
  unfold Char. rewrite Matches_Class. split.
  - intros (c & -> & Hc). simpl in Hc. rewrite orb_false_r in Hc.
    by apply Ascii.eqb_eq in Hc as ->.
  - intros ->. by exists "."%char.
Qed.

Lemma Matches_at w : Matches (Char "@") w ↔ w = ["@"%char].
Proof.
  unfold Char. rewrite Matches_Class. split.
  - intros (c & -> & Hc). simpl in Hc. rewrite orb_false_r in Hc.
    by apply Ascii.eqb_eq in Hc as ->.
  - intros ->. by exists "@"%char.
Qed.

Lemma Matches_more_labels w :
  Matches (Star (Cat (Char ".") Main.label)) w ↔
  ∃ ls, w = concat (map (cons "."%char) ls) ∧ Forall isLabel ls.
Proof.
  split.
  - intros H. remember (Star (Cat (Char ".") Main.label)) as e eqn:He.
    induction H; try discriminate.
    + by exists [].
    + injection He as ->.
      destruct (IHMatches2 eq_refl) as (ls & -> & Hls).
      apply Matches_Cat in H as (p & l & -> & Hp & Hl).
      apply Matches_dot in Hp as ->. apply Matches_label in Hl.
      exists (l :: ls). split; [done | by constructor].
  - intros (ls & -> & Hls). induction Hls as [|l ls Hl _ IH]; simpl.
    + constructor.
    + change ("."%char :: l ++ concat (map (cons "."%char) ls))
        with (("."%char :: l) ++ concat (map (cons "."%char) ls)).
      apply MStarApp; [| done].
      apply (MCat _ _ ["."%char] l); [by apply Matches_dot | by apply Matches_label].
Qed.

Lemma Matches_domain w : Matches Main.domain w ↔ isDomain w.
Proof.
  unfold Main.domain, isDomain, dotted. rewrite Matches_Cat. split.
  - intros (l & r & -> & Hl & Hr).
    apply Matches_label in Hl. apply Matches_more_labels in Hr as (ls & -> & Hls).
    eauto.
  - intros (l & ls & -> & Hl & Hls). exists l, (concat (map (cons "."%char) ls)).
    split; [done |]. split; [by apply Matches_label |].
    apply Matches_more_labels. eauto.
Qed.

Lemma Matches_rxEmail w :
  Matches Main.rxEmail w ↔
  ∃ loc d, w = loc ++ "@"%char :: d ∧ isLocalPart loc ∧ isDomain d.
Proof.
  unfold Main.rxEmail. rewrite Matches_Cat. split.
  - intros (loc & r & -> & Hloc & Hr).
    apply Matches_Cat in Hr as (a & d & -> & Ha & Hd).
    apply Matches_at in Ha as ->.
    exists loc, d. by rewrite <- Matches_localPart, <- Matches_domain.
  - intros (loc & d & -> & Hloc & Hd).
    exists loc, ("@"%char :: d). split; [done |].
    split; [by apply Matches_localPart |].
    apply (MCat _ _ ["@"%char] d); [by apply Matches_at | by apply Matches_domain].
Qed.

Lemma isEmailValid_true email :
  Main.isEmailValid email = true ↔
  3 ≤ String.length email ≤ 254 ∧
  Matches Main.rxEmail (list_ascii_of_string email).
Proof.
  unfold Main.isEmailValid, MatchString, len.
  rewrite <- matchb_spec.
  destruct (Z.ltb_spec (Z.of_nat (String.length email)) 3);
    destruct (Z.gtb_spec (Z.of_nat (String.length email)) 254);
    destruct (matchb Main.rxEmail (list_ascii_of_string email)); simpl;
    split; try done; try lia; try (intros [_ ?]; done).
Qed.

Lemma isEmailValid_ValidEmail email :
  Main.isEmailValid email = true ↔ ValidEmail email.
Proof.
  unfold ValidEmail. by rewrite isEmailValid_true, Matches_rxEmail.
Qed.

Lemma localChar_not_at c : localChar c = true → c ≠ "@"%char.
Proof. intros Hc ->. done. Qed.

Lemma labelChar_not_at c : labelChar c = true → c ≠ "@"%char.
Proof. intros Hc ->. done. Qed.

Lemma filter_at_nil (l : list ascii) :
  Forall (λ c, c ≠ "@"%char) l → filter (λ c, c = "@"%char) l = [].
Proof.
  induction 1 as [|c l Hc _ IH]; [done |].
  rewrite filter_cons. by destruct (decide (c = "@"%char)).
Qed.

Lemma isLabel_not_at l : isLabel l → Forall (λ c, c ≠ "@"%char) l.
Proof.
  intros (_ & Hall & _). eapply Forall_impl; [exact Hall |].
  intros c Hc. by apply labelChar_not_at.
Qed.

Lemma isDomain_not_at d : isDomain d → Forall (λ c, c ≠ "@"%char) d.
Proof.
  intros (l & ls & -> & Hl & Hls). unfold dotted.
  apply Forall_app. split; [by apply isLabel_not_at |].
  induction Hls as [|l' ls Hl' _ IH]; simpl; [constructor |].
  constructor; [done |]. apply Forall_app. split; [by apply isLabel_not_at | done].
Qed.

Lemma ValidEmail_countAt email : ValidEmail email → countAt email = 1.
Proof.
  intros (_ & loc & d & Heq & (_ & Hloc) & Hd). unfold countAt. rewrite Heq.
  rewrite filter_app, filter_cons. simpl.
  rewrite (filter_at_nil loc), (filter_at_nil d).
  - by destruct (decide ("@"%char = "@"%char)).
  - by apply isDomain_not_at.
  - eapply Forall_impl; [exact Hloc |]. intros c Hc. by apply localChar_not_at.
Qed.

Lemma isEmailValid_length email :
  (len email < 3 ∨ len email > 254)%Z → Main.isEmailValid email = false.
Proof.
  intros Hlen. destruct (Main.isEmailValid email) eqn:Hv; [| done].
  apply isEmailValid_true in Hv as [Hv _]. unfold len in Hlen. lia.
Qed.

(** C6.  The validator is a function of the address alone, and it accepts
    exactly the addresses of 3 to 254 bytes made of a local part of 1 to 64
    letters, digits and listed specials, an [@], and a domain of
    dot-separated labels (1 to 63 letters, digits and hyphens, no hyphen
    first or last).  It rejects every address shorter than 3 or longer than
    254 bytes and every address that does not hold exactly one [@]; so it
    accepts [a@b.co] and rejects [ab] and [foo@@bar]. *)
Theorem isEmailValid_spec :
  (∀ email, Main.isEmailValid email = true ↔ ValidEmail email) ∧
  (∀ email, (len email < 3 ∨ len email > 254)%Z → Main.isEmailValid email = false) ∧
  (∀ email, countAt email ≠ 1 → Main.isEmailValid email = false) ∧
  Main.isEmailValid "a@b.co" = true ∧
  Main.isEmailValid "ab" = false ∧
  Main.isEmailValid "foo@@bar" = false.
Proof.
  split; [exact isEmailValid_ValidEmail |].
  split; [exact isEmailValid_length |].
  split; [| by vm_compute].
  intros email Hcount. destruct (Main.isEmailValid email) eqn:Hv; [| done].
  apply isEmailValid_ValidEmail, ValidEmail_countAt in Hv. done.
Qed.

End ValidatorFacts.

(* ===================================================================== *)
(** * The handlers of [package main]                                      *)
(* ===================================================================== *)

Module HandlerFacts.
Import Main Text.

(** Unfolds the sequencing of the [Go] monad. *)
Ltac go_unfold :=
  unfold respond, mbind, mret, Go_bind, Go_ret, bind, ret, call, deref, panic in *.

Abbreviation Request := APIGatewayProxyRequest.t.
Abbreviation Response := APIGatewayProxyResponse.t.

Lemma len_zero (s : string) : (len s =? 0) = true ↔ s = "".
Proof.
  unfold len. by destruct s.
Qed.

Lemma len_zero_false (s : string) : (len s =? 0) = false ↔ s ≠ "".
Proof. rewrite <- len_zero. by destruct (len s =? 0). Qed.

Lemma len_pos (s : string) : s ≠ "" → (len s >? 0) = true.
Proof. unfold len. by destruct s. Qed.

Section Generic.
Context {St : Type} `{dynaClient : DynamoDBAPI St} `{codec : EncodingJSON}.

(** [fetchUser] in terms of the store call and the decoder. *)
Lemma fetchUser_unfold (email : string) (st : St) :
  fetchUser email st =
  match GetItem (mkGetItemInput {["email" := AV_S email]} tableName) st with
  | (Err _, st') =>
      Done ((None, Some (mkErrorBody (Some ErrorFailedToFetchRecord))), st')
  | (Ok result, st') =>
      match UnmarshalMap (GetItemOutput_Item result) zeroUser with
      | Err _ => Done ((None, Some (mkErrorBody (Some ErrorFailedToUnmarshalRecord))), st')
      | Ok item => Done ((Some item, None), st')
      end
  end.
Proof.
  unfold fetchUser. go_unfold.
  destruct (GetItem _ st) as [[result | e] st']; [| done].
  by destruct (UnmarshalMap _ _).
Qed.

(** [fetchUser] never panics, and returns a record exactly when it returns
    no error. *)
Lemma fetchUser_returns (email : string) (st : St) :
  ∃ user err st', fetchUser email st = Done ((user, err), st') ∧
                  (user = None ↔ err ≠ None).
Proof.
  rewrite fetchUser_unfold.
  destruct (GetItem _ st) as [[result | e] st'].
  - destruct (UnmarshalMap _ _); eexists _, _, _; split; try done; naive_solver.
  - eexists _, _, _; split; try done; naive_solver.
Qed.

Lemma MarshalMap_ok (u : User) : ∃ av, MarshalMap u = Ok av.
Proof. by eexists. Qed.

(** The write that ends both [createUser] and [updateUser]. *)
#[local] Abbreviation afterPut r :=
  (match r with
   | (Err _, st') =>
       Done ((APIResponse 400 (errorBody ErrorCouldNotDynamoPutItem), None), st')
   | (Ok _, st') => Done ((APIResponse 201 None, None), st')
   end).

(** [createUser] once the body is decoded, the address is accepted and the
    lookup has returned a record. *)
Lemma createUser_found (req : Request) (st st1 : St) user cur err :
  json_Unmarshal (APIGatewayProxyRequest.Body req) = Ok user →
  isEmailValid (Email user) = true →
  fetchUser (Email user) st = Done ((Some cur, err), st1) →
  createUser req st =
  if decide (Email cur = "")
  then match MarshalMap user with
       | Ok av => afterPut (PutItem (mkPutItemInput av tableName) st1)
       | Err _ => Done ((APIResponse 400 (errorBody ErrorCouldNotMarshalItem), None), st1)
       end
  else Done ((APIResponse 400 (errorBody ErrorUserAlreadyExists), None), st1).
Proof.
  intros Hbody Hvalid Hfetch. unfold createUser. rewrite Hbody, Hvalid. simpl.
  go_unfold. rewrite Hfetch. simpl.
  destruct (decide (Email cur = "")) as [Hcur | Hcur].
  - apply len_zero in Hcur as ->. simpl.
    by destruct (PutItem _ st1) as [[out | e] st2].
  - by apply len_zero_false in Hcur as ->.
Qed.

(** [createUser] when the lookup returns no record: the field access on
    the nil pointer panics. *)
Lemma createUser_nil (req : Request) (st st1 : St) user err :
  json_Unmarshal (APIGatewayProxyRequest.Body req) = Ok user →
  isEmailValid (Email user) = true →
  fetchUser (Email user) st = Done ((None, err), st1) →
  ∃ msg, createUser req st = Panic msg.
Proof.
  intros Hbody Hvalid Hfetch. unfold createUser. rewrite Hbody, Hvalid. simpl.
  go_unfold. rewrite Hfetch. simpl. eauto.
Qed.

Lemma updateUser_found (req : Request) (st st1 : St) user cur err :
  json_Unmarshal (APIGatewayProxyRequest.Body req) = Ok user →
  fetchUser (Email user) st = Done ((Some cur, err), st1) →
  updateUser req st =
  if decide (Email cur = "")
  then Done ((APIResponse 400 (errorBody ErrorUserDoesNotExists), None), st1)
  else match MarshalMap user with
       | Ok av => afterPut (PutItem (mkPutItemInput av tableName) st1)
       | Err _ => Done ((APIResponse 400 (errorBody ErrorCouldNotMarshalItem), None), st1)
       end.
Proof.
  intros Hbody Hfetch. unfold updateUser. rewrite Hbody.
  go_unfold. rewrite Hfetch. simpl.
  destruct (decide (Email cur = "")) as [Hcur | Hcur].
  - by apply len_zero in Hcur as ->.
  - apply len_zero_false in Hcur as ->. simpl.
    by destruct (PutItem _ st1) as [[out | e] st2].
Qed.

Lemma updateUser_nil (req : Request) (st st1 : St) user err :
  json_Unmarshal (APIGatewayProxyRequest.Body req) = Ok user →
  fetchUser (Email user) st = Done ((None, err), st1) →
  ∃ msg, updateUser req st = Panic msg.
Proof.
  intros Hbody Hfetch. unfold updateUser. rewrite Hbody.
  go_unfold. rewrite Hfetch. simpl. eauto.
Qed.

Lemma handler_GET (req : Request) :
  APIGatewayProxyRequest.HTTPMethod req = "GET" → handler req = getUser req.
Proof. unfold handler. by intros ->. Qed.

Lemma handler_POST (req : Request) :
  APIGatewayProxyRequest.HTTPMethod req = "POST" → handler req = createUser req.
Proof. unfold handler. by intros ->. Qed.

Lemma handler_PUT (req : Request) :
  APIGatewayProxyRequest.HTTPMethod req = "PUT" → handler req = updateUser req.
Proof. unfold handler. by intros ->. Qed.

Lemma handler_DELETE (req : Request) :
  APIGatewayProxyRequest.HTTPMethod req = "DELETE" → handler req = deleteUser req.
Proof. unfold handler. by intros ->. Qed.

(** [getUser] with a non-empty [email] parameter is [showUser], spelled
    out on the store call and the decoder. *)
Lemma getUser_show (req : Request) (st : St) :
  let email := index (APIGatewayProxyRequest.QueryStringParameters req) "email" in
  email ≠ "" →
  getUser req st =
  match GetItem (mkGetItemInput {["email" := AV_S email]} tableName) st with
  | (Err _, st') =>
      Done ((APIResponse 400 (errorBody ErrorFailedToFetchRecord), None), st')
  | (Ok result, st') =>
      match UnmarshalMap (GetItemOutput_Item result) zeroUser with
      | Err _ =>
          Done ((APIResponse 400 (errorBody ErrorFailedToUnmarshalRecord), None), st')
      | Ok user => Done ((APIResponse 200 (Some (VUser user)), None), st')
      end
  end.
Proof.
  intros email Hne. unfold getUser. fold email.
  rewrite (len_pos email Hne). unfold showUser. go_unfold. rewrite fetchUser_unfold.
  destruct (GetItem _ st) as [[result | e] st']; [| done].
  by destruct (UnmarshalMap _ _).
Qed.

Lemma getUser_list (req : Request) (st : St) :
  index (APIGatewayProxyRequest.QueryStringParameters req) "email" = "" →
  getUser req st =
  match Scan (mkScanInput tableName) st with
  | (Err _, st') =>
      Done ((APIResponse 400 (errorBody ErrorFailedToFetchRecord), None), st')
  | (Ok result, st') =>
      Done ((APIResponse 200 (Some (VScanOutput result)), None), st')
  end.
Proof.
  intros Hemail. unfold getUser. rewrite Hemail. simpl.
  unfold listUsers. go_unfold.
  by destruct (Scan _ st) as [[result | e] st'].
Qed.

End Generic.

(** ** The handlers over the in-memory table *)

Section Table.
Context `{codec : EncodingJSON}.

Lemma isEmailValid_nonempty (email : string) :
  isEmailValid email = true → email ≠ "".
Proof. intros Hv ->. done. Qed.

Lemma getItem_reliable (rows : gmap string AttrMap) (email : string) :
  email ≠ "" →
  GetItem (mkGetItemInput {["email" := AV_S email]} tableName) (MemStore.reliable rows)
  = (Ok (mkGetItemOutput (rows !! email)), MemStore.reliable rows).
Proof.
  intros Hne. unfold GetItem, MemStore.client, MemStore.getItem, MemStore.attempt.
  simpl. unfold MemStore.keyOf. rewrite lookup_singleton_eq.
  by destruct (String.eqb_spec email "").
Qed.

Lemma deleteItem_reliable (rows : gmap string AttrMap) (email : string) :
  email ≠ "" →
  DeleteItem (mkDeleteItemInput {["email" := AV_S email]} tableName) (MemStore.reliable rows)
  = (Ok (mkDeleteItemOutput None), MemStore.reliable (delete email rows)).
Proof.
  intros Hne. unfold DeleteItem, MemStore.client, MemStore.deleteItem, MemStore.attempt.
  simpl. unfold MemStore.keyOf. rewrite lookup_singleton_eq.
  by destruct (String.eqb_spec email "").
Qed.

Lemma encodeString_S (s : string) : s ≠ "" → encodeString s = AV_S s.
Proof. intros Hne. unfold encodeString. by apply len_zero_false in Hne as ->. Qed.

Lemma putItem_reliable (rows : gmap string AttrMap) (u : User) (av : AttrMap) :
  Email u ≠ "" →
  MarshalMap u = Ok av →
  PutItem (mkPutItemInput av tableName) (MemStore.reliable rows)
  = (Ok (mkPutItemOutput None), MemStore.reliable (<[Email u := av]> rows)).
Proof.
  intros Hne [= <-]. unfold PutItem, MemStore.client, MemStore.putItem, MemStore.attempt.
  simpl. unfold MemStore.keyOf. rewrite lookup_insert_eq, encodeString_S by done.
  by destruct (String.eqb_spec (Email u) "").
Qed.

Lemma decode_encode (s old : string) : decodeString (encodeString s) old = Ok s.
Proof.
  unfold encodeString. destruct (len s =? 0) eqn:Hs; [| done].
  by apply len_zero in Hs as ->.
Qed.

(** The codec round trip, whatever the record decoded into held before. *)
Lemma UnmarshalMap_MarshalMap (u item : User) :
  ∃ av, MarshalMap u = Ok av ∧ UnmarshalMap (Some av) item = Ok u.
Proof.
  eexists. split; [done |]. unfold UnmarshalMap, decodeField.
  rewrite lookup_insert_eq, decode_encode.
  rewrite lookup_insert_ne, lookup_insert_eq, decode_encode by done.
  rewrite !lookup_insert_ne, lookup_insert_eq, decode_encode by done.
  by destruct u.
Qed.

Lemma fetchUser_absent (rows : gmap string AttrMap) (email : string) :
  email ≠ "" → rows !! email = None →
  fetchUser email (MemStore.reliable rows)
  = Done ((Some zeroUser, None), MemStore.reliable rows).
Proof.
  intros Hne Hrow. by rewrite fetchUser_unfold, getItem_reliable, Hrow.
Qed.

Lemma fetchUser_stored (rows : gmap string AttrMap) (u : User) (av : AttrMap) :
  Email u ≠ "" → MarshalMap u = Ok av → rows !! Email u = Some av →
  fetchUser (Email u) (MemStore.reliable rows)
  = Done ((Some u, None), MemStore.reliable rows).
Proof.
  intros Hne Hav Hrow.
  destruct (UnmarshalMap_MarshalMap u zeroUser) as (av' & Hav' & Hrt).
  assert (av' = av) as -> by congruence.
  rewrite fetchUser_unfold, getItem_reliable, Hrow by done.
  cbn [GetItemOutput_Item]. by rewrite Hrt.
Qed.

(** Creating a record whose address is accepted and not yet in the table
    writes its encoding under the address. *)
Lemma createUser_fresh (rows : gmap string AttrMap) (req : APIGatewayProxyRequest.t)
    (u : User) (av : AttrMap) :
  json_Unmarshal (APIGatewayProxyRequest.Body req) = Ok u →
  isEmailValid (Email u) = true →
  rows !! Email u = None →
  MarshalMap u = Ok av →
  createUser req (MemStore.reliable rows)
  = Done ((APIResponse 201 None, None), MemStore.reliable (<[Email u := av]> rows)).
Proof.
  intros Hbody Hvalid Hrow Hav.
  pose proof (isEmailValid_nonempty _ Hvalid) as Hne.
  rewrite (createUser_found req _ _ u zeroUser None Hbody Hvalid
             (fetchUser_absent rows (Email u) Hne Hrow)).
  destruct (decide (Email zeroUser = "")); [| done].
  by rewrite Hav, (putItem_reliable rows u av Hne Hav).
Qed.

(** Creating a record whose address is already in the table is refused and
    leaves the table alone. *)
Lemma createUser_stored (rows : gmap string AttrMap) (req : APIGatewayProxyRequest.t)
    (u old : User) (av : AttrMap) :
  json_Unmarshal (APIGatewayProxyRequest.Body req) = Ok u →
  isEmailValid (Email u) = true →
  Email old = Email u →
  MarshalMap old = Ok av →
  rows !! Email u = Some av →
  createUser req (MemStore.reliable rows)
  = Done ((APIResponse 400 (errorBody ErrorUserAlreadyExists), None),
          MemStore.reliable rows).
Proof.
  intros Hbody Hvalid Hsame Hav Hrow.
  pose proof (isEmailValid_nonempty _ Hvalid) as Hne.
  assert (Hfetch : fetchUser (Email u) (MemStore.reliable rows)
                   = Done ((Some old, None), MemStore.reliable rows)).
  { rewrite <- Hsame. apply (fetchUser_stored rows old av); congruence. }
  rewrite (createUser_found req _ _ u old None Hbody Hvalid Hfetch).
  destruct (decide (Email old = "")); [congruence | done].
Qed.

Lemma scan_reliable (rows : gmap string AttrMap) :
  ∃ result,
    Scan (mkScanInput tableName) (MemStore.reliable rows)
    = (Ok result, MemStore.reliable rows) ∧
    ScanOutput_Count result = Z.of_nat (size rows) ∧
    ScanOutput_LastEvaluatedKey result = None ∧
    (∀ item, item ∈ ScanOutput_Items result ↔ ∃ k, rows !! k = Some item).
Proof.
  eexists. split; [done |]. simpl. repeat split.
  - by rewrite length_fmap, length_map_to_list.
  - intros Hin. apply list_elem_of_fmap in Hin as ([k item'] & -> & Hin).
    exists k. by apply elem_of_map_to_list.
  - intros [k Hk]. apply list_elem_of_fmap. exists (k, item).
    split; [done |]. by apply elem_of_map_to_list.
Qed.

End Table.

(** ** The claims *)

Section Claims.
Context {St : Type} `{dynaClient : DynamoDBAPI St} `{codec : EncodingJSON}.

(** C1.  Where the specification asks for a response, the code panics: when the
    body decodes and the store's get-item call of the existence check
    fails, [fetchUser] returns a nil record, and the field access that
    follows panics; the update handler does so whatever the address, the
    create handler once the address is accepted.  No response is
    returned. *)
Theorem lookup_failure_panics (req : Request) (st st1 : St) (sent : User) (e : error) :
  json_Unmarshal (APIGatewayProxyRequest.Body req) = Ok sent →
  GetItem (mkGetItemInput {["email" := AV_S (Email sent)]} tableName) st = (Err e, st1) →
  (isEmailValid (Email sent) = true → ∃ msg, createUser req st = Panic msg) ∧
  (∃ msg, updateUser req st = Panic msg).
Proof.
  intros Hbody Hget.
  assert (Hfetch : fetchUser (Email sent) st
                   = Done ((None, Some (mkErrorBody (Some ErrorFailedToFetchRecord))), st1)).
  { by rewrite fetchUser_unfold, Hget. }
  split.
  - intros Hvalid. by apply (createUser_nil req st st1 sent _ Hbody Hvalid Hfetch).
  - by apply (updateUser_nil req st st1 sent _ Hbody Hfetch).
Qed.

(** C9.  The top-level handler looks at the method only: [GET] runs the
    fetch handler, [POST] the create handler, [PUT] the update handler,
    [DELETE] the delete handler, and every other method is answered with
    HTTP 405 and the method-not-allowed error body, the store untouched.
    The path of the request plays no part. *)
Theorem handler_dispatch (req : Request) (st : St) :
  let method := APIGatewayProxyRequest.HTTPMethod req in
  (method = "GET" → handler req st = getUser req st) ∧
  (method = "POST" → handler req st = createUser req st) ∧
  (method = "PUT" → handler req st = updateUser req st) ∧
  (method = "DELETE" → handler req st = deleteUser req st) ∧
  (method ≠ "GET" → method ≠ "POST" → method ≠ "PUT" → method ≠ "DELETE" →
   handler req st =
   Done ((APIResponse 405 (errorBody ErrorMethodNotAllowed), None), st)) ∧
  reads ErrorMethodNotAllowed "method not allowed" ∧
  (∀ path,
     handler (APIGatewayProxyRequest.mk method path
                (APIGatewayProxyRequest.QueryStringParameters req)
                (APIGatewayProxyRequest.Body req)) st
     = handler req st).
Proof.
  intros method. unfold handler. fold method.
  repeat split; try (intros ->; done).
  intros Hget Hpost Hput Hdel.
  apply String.eqb_neq in Hget, Hpost, Hput, Hdel.
  by rewrite Hget, Hpost, Hput, Hdel.
Qed.

(** C7.  The delete handler sends one delete call whose key is the value
    of the query parameter [email], the empty string when the parameter is
    missing; it answers HTTP 200 with the store's output when the call
    succeeds and HTTP 400 with the could-not-delete error body when the
    call fails, and in no other case. *)
Theorem deleteUser_spec (req : Request) (st : St) :
  let query := APIGatewayProxyRequest.QueryStringParameters req in
  let email := index query "email" in
  let input := mkDeleteItemInput {["email" := AV_S email]} tableName in
  (query !! "email" = None → email = "") ∧
  (∀ result st', DeleteItem input st = (Ok result, st') →
     deleteUser req st =
     Done ((APIResponse 200 (Some (VDeleteItemOutput result)), None), st')) ∧
  (∀ e st', DeleteItem input st = (Err e, st') →
     deleteUser req st =
     Done ((APIResponse 400 (errorBody ErrorCouldNotDeleteItem), None), st')) ∧
  (∃ resp st', deleteUser req st = Done ((resp, None), st') ∧
     (APIGatewayProxyResponse.StatusCode resp = 400 ↔
      ∃ e, (DeleteItem input st).1 = Err e) ∧
     (APIGatewayProxyResponse.StatusCode resp = 200 ↔
      ∃ result, (DeleteItem input st).1 = Ok result)) ∧
  (∀ (rows : gmap string AttrMap), email ≠ "" → rows !! email = None →
     deleteUser req (MemStore.reliable rows) =
     Done ((APIResponse 200 (Some (VDeleteItemOutput (mkDeleteItemOutput None))), None),
           MemStore.reliable rows)) ∧
  reads ErrorCouldNotDeleteItem "could not delete item".
Proof.
  intros query email input.
  assert (Hmem : ∀ rows : gmap string AttrMap, email ≠ "" → rows !! email = None →
     deleteUser req (MemStore.reliable rows) =
     Done ((APIResponse 200 (Some (VDeleteItemOutput (mkDeleteItemOutput None))), None),
           MemStore.reliable rows)).
  { intros rows Hne Hrow. unfold deleteUser. fold query email. go_unfold.
    by rewrite deleteItem_reliable, delete_id. }
  revert Hmem. generalize (MemStore.reliable). intros reliable Hmem.
  unfold deleteUser. fold query email input. go_unfold.
  split; [by unfold email, index; intros -> |].
  destruct (DeleteItem input st) as [[result | e] st1]; simpl.
  - split; [by intros ? ? [= <- <-] |]. split; [done |]. split; [| done].
    eexists _, _. split; [done |]. simpl. split; split; try done; eauto.
    intros [? ?]; done.
  - split; [done |]. split; [by intros ? ? [= <- <-] |]. split; [| done].
    eexists _, _. split; [done |]. simpl. split; split; try done; eauto.
    intros [? ?]; done.
Qed.

(** C5.  The update handler answers HTTP 422 with the invalid-email text
    when the body does not decode; HTTP 400 with the does-not-exist text
    when the record returned by the lookup has an empty email; and HTTP 201
    when the record has an email and the write succeeds. *)
Theorem updateUser_spec (req : Request) (st : St) :
  let body := APIGatewayProxyRequest.Body req in
  (∀ e, json_Unmarshal body = Err e →
     updateUser req st =
     Done ((APIResponse 422 (errorBody ErrorInvalidEmail), None), st)) ∧
  (∀ user cur err st1,
     json_Unmarshal body = Ok user →
     fetchUser (Email user) st = Done ((Some cur, err), st1) →
     Email cur = "" →
     updateUser req st =
     Done ((APIResponse 400 (errorBody ErrorUserDoesNotExists), None), st1)) ∧
  (∀ user cur err st1 av out st2,
     json_Unmarshal body = Ok user →
     fetchUser (Email user) st = Done ((Some cur, err), st1) →
     Email cur ≠ "" →
     MarshalMap user = Ok av →
     PutItem (mkPutItemInput av tableName) st1 = (Ok out, st2) →
     updateUser req st = Done ((APIResponse 201 None, None), st2)) ∧
  reads ErrorInvalidEmail "invalid email" ∧
  reads ErrorUserDoesNotExists "user does not exist".
Proof.
  intros body. repeat split.
  - intros e He. unfold updateUser. fold body. by rewrite He.
  - intros user cur err st1 Hbody Hfetch Hcur.
    rewrite (updateUser_found req st st1 user cur err Hbody Hfetch).
    by destruct (decide (Email cur = "")).
  - intros user cur err st1 av out st2 Hbody Hfetch Hcur Hav Hput.
    rewrite (updateUser_found req st st1 user cur err Hbody Hfetch).
    destruct (decide (Email cur = "")); [done |]. by rewrite Hav, Hput.
Qed.

(** C2, as the code has it.  The create handler answers HTTP 422 with the
    invalid-user-data text when the body does not decode; otherwise HTTP
    400 with the invalid-email text when the address is rejected by the
    validator; and, when the lookup returns a record without an email and
    the write succeeds, HTTP 201 whose body is the JSON literal [null]. *)
Theorem createUser_spec (req : Request) (st : St) :
  let body := APIGatewayProxyRequest.Body req in
  (∀ e, json_Unmarshal body = Err e →
     createUser req st =
     Done ((APIResponse 422 (errorBody ErrorInvalidUserData), None), st)) ∧
  (∀ user, json_Unmarshal body = Ok user →
     isEmailValid (Email user) = false →
     createUser req st =
     Done ((APIResponse 400 (errorBody ErrorInvalidEmail), None), st)) ∧
  (∀ user cur err st1 av out st2,
     json_Unmarshal body = Ok user →
     isEmailValid (Email user) = true →
     fetchUser (Email user) st = Done ((Some cur, err), st1) →
     Email cur = "" →
     MarshalMap user = Ok av →
     PutItem (mkPutItemInput av tableName) st1 = (Ok out, st2) →
     ∃ resp, createUser req st = Done ((resp, None), st2) ∧
             APIGatewayProxyResponse.StatusCode resp = 201 ∧
             APIGatewayProxyResponse.Body resp = "null") ∧
  reads ErrorInvalidUserData "invalid user data" ∧
  reads ErrorInvalidEmail "invalid email".
Proof.
  intros body. repeat split.
  - intros e He. unfold createUser. fold body. by rewrite He.
  - intros user Hbody Hvalid. unfold createUser. fold body.
    by rewrite Hbody, Hvalid.
  - intros user cur err st1 av out st2 Hbody Hvalid Hfetch Hcur Hav Hput.
    rewrite (createUser_found req st st1 user cur err Hbody Hvalid Hfetch).
    destruct (decide (Email cur = "")); [| done]. rewrite Hav, Hput.
    by eexists.
Qed.

(** C3.  On a table that does not hold a given accepted address, a first
    POST creating it is answered HTTP 201 and a second POST creating the
    same address is answered HTTP 400 with the already-exists text.  In
    general, once the lookup has returned a record, the create handler
    refuses exactly when that record has a non-empty email, and goes on to
    the write otherwise. *)
Theorem createUser_twice :
  (∀ (rows : gmap string AttrMap) (first second : Request) (u1 u2 : User),
     APIGatewayProxyRequest.HTTPMethod first = "POST" →
     APIGatewayProxyRequest.HTTPMethod second = "POST" →
     json_Unmarshal (APIGatewayProxyRequest.Body first) = Ok u1 →
     json_Unmarshal (APIGatewayProxyRequest.Body second) = Ok u2 →
     Email u2 = Email u1 →
     isEmailValid (Email u1) = true →
     rows !! Email u1 = None →
     ∃ st1,
       handler first (MemStore.reliable rows)
       = Done ((APIResponse 201 None, None), st1) ∧
       handler second st1
       = Done ((APIResponse 400 (errorBody ErrorUserAlreadyExists), None), st1)) ∧
  (∀ (req : Request) (st st1 : St) (user cur : User) (err : option ErrorBody),
     json_Unmarshal (APIGatewayProxyRequest.Body req) = Ok user →
     isEmailValid (Email user) = true →
     fetchUser (Email user) st = Done ((Some cur, err), st1) →
     (Email cur ≠ "" →
      createUser req st
      = Done ((APIResponse 400 (errorBody ErrorUserAlreadyExists), None), st1)) ∧
     (Email cur = "" →
      ∃ av, MarshalMap user = Ok av ∧
        createUser req st =
        match PutItem (mkPutItemInput av tableName) st1 with
        | (Err _, st2) =>
            Done ((APIResponse 400 (errorBody ErrorCouldNotDynamoPutItem), None), st2)
        | (Ok _, st2) => Done ((APIResponse 201 None, None), st2)
        end)) ∧
  reads ErrorUserAlreadyExists "user already exists".
Proof.
  split; [| split; [| done]].
  - intros rows first second u1 u2 Hm1 Hm2 Hb1 Hb2 Hsame Hvalid Hrow.
    destruct (MarshalMap_ok u1) as [av Hav].
    exists (MemStore.reliable (<[Email u1 := av]> rows)).
    rewrite (handler_POST first Hm1), (handler_POST second Hm2). split.
    + by apply createUser_fresh.
    + apply (createUser_stored _ second u2 u1 av); try done.
      * by rewrite Hsame.
      * by rewrite Hsame, lookup_insert_eq.
  - intros req st st1 user cur err Hbody Hvalid Hfetch.
    rewrite (createUser_found req st st1 user cur err Hbody Hvalid Hfetch).
    split; intros Hcur; destruct (decide (Email cur = "")); try done.
    destruct (MarshalMap_ok user) as [av Hav]. exists av. by rewrite Hav.
Qed.

(** C4, as the code has it.  With a non-empty [email] parameter the fetch
    handler sends one get-item call for that address: HTTP 400 with the
    failed-to-fetch text when the call fails, HTTP 400 with the
    failed-to-unmarshal text when the item cannot be decoded, and HTTP 200
    with the decoded record otherwise; when the store has no item for the
    address the record of that answer is the zero record.  With the
    parameter absent or empty it sends one scan without a limit: HTTP 200
    with the scan output, HTTP 400 when the scan fails; on the in-memory
    table the output holds every item. *)
Theorem getUser_spec (req : Request) (st : St) :
  let query := APIGatewayProxyRequest.QueryStringParameters req in
  let email := index query "email" in
  let input := mkGetItemInput {["email" := AV_S email]} tableName in
  (query !! "email" = None → email = "") ∧
  (email ≠ "" →
   getUser req st =
   match GetItem input st with
   | (Err _, st') =>
       Done ((APIResponse 400 (errorBody ErrorFailedToFetchRecord), None), st')
   | (Ok result, st') =>
       match UnmarshalMap (GetItemOutput_Item result) zeroUser with
       | Err _ =>
           Done ((APIResponse 400 (errorBody ErrorFailedToUnmarshalRecord), None), st')
       | Ok user => Done ((APIResponse 200 (Some (VUser user)), None), st')
       end
   end) ∧
  (email ≠ "" → ∀ st', GetItem input st = (Ok (mkGetItemOutput None), st') →
   getUser req st = Done ((APIResponse 200 (Some (VUser zeroUser)), None), st')) ∧
  (email = "" →
   getUser req st =
   match Scan (mkScanInput tableName) st with
   | (Err _, st') =>
       Done ((APIResponse 400 (errorBody ErrorFailedToFetchRecord), None), st')
   | (Ok result, st') =>
       Done ((APIResponse 200 (Some (VScanOutput result)), None), st')
   end) ∧
  (email = "" → ∀ rows : gmap string AttrMap,
   ∃ result,
     getUser req (MemStore.reliable rows)
     = Done ((APIResponse 200 (Some (VScanOutput result)), None), MemStore.reliable rows) ∧
     ∀ item, item ∈ ScanOutput_Items result ↔ ∃ k, rows !! k = Some item) ∧
  reads ErrorFailedToFetchRecord "failed to fetch record".
Proof.
  intros query email input.
  split; [by unfold email, index; intros -> |].
  split; [intros Hne; by apply getUser_show |].
  split.
  { intros Hne st' Hget. rewrite getUser_show by done.
    fold query email input. by rewrite Hget. }
  split; [intros Hemail; by apply getUser_list |].
  split; [| done].
  intros Hemail rows. destruct (scan_reliable rows) as (result & Hscan & _ & _ & Hitems).
  exists result. split; [| done]. by rewrite getUser_list, Hscan.
Qed.

(** C8.  Encoding a record into the store's attribute format and decoding
    it back gives the same record, field for field; consequently, on a
    table that does not hold an accepted address, creating a record and
    then fetching its address returns the record that was sent. *)
Theorem codec_roundtrip :
  (∀ u item : User,
     ∃ av, MarshalMap u = Ok av ∧ UnmarshalMap (Some av) item = Ok u) ∧
  (∀ (rows : gmap string AttrMap) (post get : Request) (u : User),
     APIGatewayProxyRequest.HTTPMethod post = "POST" →
     json_Unmarshal (APIGatewayProxyRequest.Body post) = Ok u →
     isEmailValid (Email u) = true →
     rows !! Email u = None →
     APIGatewayProxyRequest.HTTPMethod get = "GET" →
     APIGatewayProxyRequest.QueryStringParameters get !! "email" = Some (Email u) →
     ∃ st1,
       handler post (MemStore.reliable rows)
       = Done ((APIResponse 201 None, None), st1) ∧
       fetchUser (Email u) st1 = Done ((Some u, None), st1) ∧
       handler get st1 = Done ((APIResponse 200 (Some (VUser u)), None), st1)).
Proof.
  split; [exact UnmarshalMap_MarshalMap |].
  intros rows post get u Hpost Hbody Hvalid Hrow Hget Hquery.
  destruct (MarshalMap_ok u) as [av Hav].
  pose proof (isEmailValid_nonempty _ Hvalid) as Hne.
  exists (MemStore.reliable (<[Email u := av]> rows)).
  assert (Hfetch : fetchUser (Email u) (MemStore.reliable (<[Email u := av]> rows))
                   = Done ((Some u, None), MemStore.reliable (<[Email u := av]> rows))).
  { apply (fetchUser_stored _ u av); [done | done | by rewrite lookup_insert_eq]. }
  rewrite (handler_POST post Hpost), (handler_GET get Hget).
  split; [by apply createUser_fresh |]. split; [done |].
  unfold getUser, index. rewrite Hquery. simpl.
  rewrite (len_pos (Email u) Hne). unfold showUser. go_unfold. by rewrite Hfetch.
Qed.

End Claims.
End HandlerFacts.

(* ===================================================================== *)
(** * [package user] against [package main]                               *)
(* ===================================================================== *)

Module PackageFacts.
Import Refinement HandlerFacts.

(** Closes a goal [agrees]: the success case with the record [sent], or
    a failure with the status and the reason that fit. *)
Ltac settle sent :=
  repeat split;
  first
    [ left; by exists sent
    | right; first
        [ by exists 422, InvalidUserData
        | by exists 422, InvalidEmail
        | by exists 400, InvalidEmail
        | by exists 400, UserAlreadyExists
        | by exists 400, UserDoesNotExists
        | by exists 400, CouldNotMarshalItem
        | by exists 400, CouldNotDynamoPutItem ] ].

Section Agreement.
Context {St : Type} `{dynaClient : DynamoDBAPI St} `{codec : EncodingJSON}.

Lemma FetchUser_fetchUser (email : string) (st : St) :
  user.FetchUser email Main.tableName st =
  match Main.fetchUser email st with
  | Done ((u, None), st') => Done ((u, None), st')
  | Done ((u, Some (mkErrorBody (Some msg))), st') =>
      Done ((u, Some (Text.lower msg)), st')
  | Done ((u, Some (mkErrorBody None)), st') => Done ((u, Some ""), st')
  | Panic msg => Panic msg
  end.
Proof.
  rewrite fetchUser_unfold. unfold user.FetchUser. go_unfold.
  destruct (GetItem _ st) as [[result | e] st']; [| done].
  by destruct (UnmarshalMap _ _).
Qed.

(** C10.  Given the validator that [package user] calls but does not
    declare is the one of [package main], each function of the package
    agrees with the handler of [package main] that does the same work, on
    every request and every state of every store: both panic, or both
    return with the store in the same state, the function without an error
    exactly when the handler takes its success path, and then with the
    record that was sent, and otherwise both failing for the same reason.
    The messages of the two packages for a reason differ in letter case
    only, but for the two that [package user] prefixes with [user.]. *)
Theorem package_agrees (isEmailValid : string → bool) (req : Request)
    (email : string) (st : St) :
  (∀ e, isEmailValid e = Main.isEmailValid e) →
  agreesFetch (Main.fetchUser email st) (user.FetchUser email Main.tableName st) ∧
  agrees (APIGatewayProxyRequest.Body req)
    (Main.createUser req st) (user.CreateUser isEmailValid req Main.tableName st) ∧
  agrees (APIGatewayProxyRequest.Body req)
    (Main.updateUser req st) (user.UpdateUser req Main.tableName st) ∧
  agreesDelete (Main.deleteUser req st) (user.DeleteUser req Main.tableName st) ∧
  (∀ r, r ≠ UserAlreadyExists → r ≠ UserDoesNotExists →
        Text.reads (mainMessage r) (pkgMessage r)).
Proof.
  intros Hvalid. split; [| split; [| split; [| split]]].
  - rewrite FetchUser_fetchUser, fetchUser_unfold.
    destruct (GetItem _ st) as [[result | e] st']; simpl.
    + destruct (UnmarshalMap _ _); simpl.
      * repeat split. by left.
      * repeat split. right. by exists FailedToUnmarshalRecord.
    + repeat split. right. by exists FailedToFetchRecord.
  - unfold Main.createUser, user.CreateUser.
    destruct (json_Unmarshal _) as [sent | e] eqn:Hbody; [| simpl; settle sent].
    rewrite Hvalid.
    destruct (Main.isEmailValid (Email sent)); simpl; [| settle sent].
    go_unfold. rewrite FetchUser_fetchUser.
    destruct (fetchUser_returns (Email sent) st) as (u & err & st' & -> & _).
    destruct err as [[[msg|]]|]; simpl;
      (destruct u as [cur|]; simpl; [| done]);
      (destruct (len (Email cur) =? 0); simpl; [| settle sent]);
      (destruct (PutItem _ st') as [[out | e] st2]; simpl; settle sent).
  - unfold Main.updateUser, user.UpdateUser.
    destruct (json_Unmarshal _) as [sent | e] eqn:Hbody; [| simpl; settle sent].
    go_unfold. rewrite FetchUser_fetchUser.
    destruct (fetchUser_returns (Email sent) st) as (u & err & st' & -> & _).
    destruct err as [[[msg|]]|]; simpl;
      (destruct u as [cur|]; simpl; [| done]);
      (destruct (len (Email cur) =? 0); simpl; [settle sent |]);
      (destruct (PutItem _ st') as [[out | e] st2]; simpl; settle sent).
  - unfold Main.deleteUser, user.DeleteUser. go_unfold.
    destruct (DeleteItem _ st) as [[out | e] st']; simpl; repeat split.
    + left. by exists out.
    + right. by exists CouldNotDeleteItem.
  - intros r Hr1 Hr2. by destruct r.
Qed.

End Agreement.
End PackageFacts.

(* ===================================================================== *)
(** * Runs on the in-memory table                                         *)
(* ===================================================================== *)

Module Runs.
Import Main Samples.

(** A POST and a PUT with a well-formed record, served while the store's
    get-item call fails: both handlers panic, and [handler] with them. *)
Lemma lookup_failure_panics_run :
  ((isEmailValid (Email ann) = true → ∃ msg, createUser postAnn failingTable = Panic msg) ∧
   (∃ msg, updateUser postAnn failingTable = Panic msg)) ∧
  handler postAnn failingTable
  = Panic "runtime error: invalid memory address or nil pointer dereference" ∧
  handler putAnn failingTable
  = Panic "runtime error: invalid memory address or nil pointer dereference".
Proof.
  split.
  - apply (HandlerFacts.lookup_failure_panics postAnn failingTable
             (MemStore.mk tableName ∅ []) ann "RequestError: send request failed");
      vm_compute; reflexivity.
  - split; vm_compute; reflexivity.
Defined.

(** C2, against the specification as stated: a POST that succeeds is answered HTTP
    201 with the four-byte body [null], not with an empty body. *)
Lemma createUser_body_is_not_empty :
  ∃ resp,
    handler postAnn emptyTable = Done ((resp, None), annTable) ∧
    APIGatewayProxyResponse.StatusCode resp = 201 ∧
    APIGatewayProxyResponse.Body resp = "null" ∧
    APIGatewayProxyResponse.Body resp ≠ "".
Proof.
  eexists. split; [vm_compute; reflexivity |]. repeat split. discriminate.
Qed.

(** C4, against the specification as stated: a GET for an address that the table
    does not hold is answered HTTP 200 with the zero record, not HTTP
    400. *)
Lemma getUser_not_found_is_200 :
  MemStore.rows emptyTable !! "a@b.com" = None ∧
  ∃ resp,
    handler getAnn emptyTable = Done ((resp, None), emptyTable) ∧
    resp = APIResponse 200 (Some (VUser zeroUser)) ∧
    APIGatewayProxyResponse.StatusCode resp ≠ 400.
Proof.
  split; [done |]. eexists. split; [vm_compute; reflexivity |].
  split; [vm_compute; reflexivity | discriminate].
Qed.

(** The create handler's success clause at [postAnn] on the empty table. *)
Lemma createUser_spec_run :
  ∃ resp,
    createUser postAnn emptyTable = Done ((resp, None), annTable) ∧
    APIGatewayProxyResponse.StatusCode resp = 201 ∧
    APIGatewayProxyResponse.Body resp = "null".
Proof.
  apply (proj1 (proj2 (proj2 (HandlerFacts.createUser_spec postAnn emptyTable)))
           ann zeroUser None emptyTable annItem (mkPutItemOutput None) annTable);
    vm_compute; reflexivity.
Defined.

(** Creating [ann] twice, starting from the empty table. *)
Lemma createUser_twice_run :
  ∃ st1,
    handler postAnn emptyTable = Done ((APIResponse 201 None, None), st1) ∧
    handler postAnn2 st1
    = Done ((APIResponse 400 (errorBody ErrorUserAlreadyExists), None), st1).
Proof.
  apply (proj1 (HandlerFacts.createUser_twice (St := MemStore.t))
           ∅ postAnn postAnn2 ann ann2);
    vm_compute; reflexivity.
Defined.

(** Fetching [ann] from the table that holds her record. *)
Lemma getUser_spec_run :
  getUser getAnn annTable
  = Done ((APIResponse 200 (Some (VUser ann)), None), annTable).
Proof.
  rewrite (proj1 (proj2 (HandlerFacts.getUser_spec getAnn annTable)));
    [vm_compute; reflexivity | discriminate].
Defined.

(** Updating a record that was never created, and one that was. *)
Lemma updateUser_spec_run :
  updateUser putAnn emptyTable
  = Done ((APIResponse 400 (errorBody ErrorUserDoesNotExists), None), emptyTable) ∧
  updateUser putAnn annTable = Done ((APIResponse 201 None, None), annTable).
Proof.
  split.
  - apply (proj1 (proj2 (HandlerFacts.updateUser_spec putAnn emptyTable))
             ann zeroUser None emptyTable); vm_compute; reflexivity.
  - apply (proj1 (proj2 (proj2 (HandlerFacts.updateUser_spec putAnn annTable)))
             ann ann None annTable annItem (mkPutItemOutput None) annTable);
      try (vm_compute; reflexivity).
    discriminate.
Defined.

(** Deleting from the empty table. *)
Lemma deleteUser_spec_run :
  deleteUser deleteAnn emptyTable
  = Done ((APIResponse 200 (Some (VDeleteItemOutput (mkDeleteItemOutput None))), None),
          emptyTable).
Proof.
  apply (proj1 (proj2 (proj2 (proj2 (proj2
           (HandlerFacts.deleteUser_spec deleteAnn emptyTable))))) ∅);
    [discriminate | done].
Defined.

(** Creating [ann] and then fetching her address. *)
Lemma codec_roundtrip_run :
  ∃ st1,
    handler postAnn emptyTable = Done ((APIResponse 201 None, None), st1) ∧
    fetchUser "a@b.com" st1 = Done ((Some ann, None), st1) ∧
    handler getAnn st1 = Done ((APIResponse 200 (Some (VUser ann)), None), st1).
Proof.
  apply (proj2 HandlerFacts.codec_roundtrip ∅ postAnn getAnn ann);
    vm_compute; reflexivity.
Defined.

(** The two packages on [postAnn] and the empty table, the package being
    given the validator of [package main]. *)
Lemma package_agrees_run :
  Refinement.agreesFetch
    (fetchUser "a@b.com" emptyTable) (user.FetchUser "a@b.com" tableName emptyTable) ∧
  Refinement.agrees (APIGatewayProxyRequest.Body postAnn)
    (createUser postAnn emptyTable)
    (user.CreateUser isEmailValid postAnn tableName emptyTable) ∧
  Refinement.agrees (APIGatewayProxyRequest.Body postAnn)
    (updateUser postAnn emptyTable) (user.UpdateUser postAnn tableName emptyTable) ∧
  Refinement.agreesDelete
    (deleteUser postAnn emptyTable) (user.DeleteUser postAnn tableName emptyTable) ∧
  (∀ r, r ≠ Refinement.UserAlreadyExists → r ≠ Refinement.UserDoesNotExists →
        Text.reads (Refinement.mainMessage r) (Refinement.pkgMessage r)).
Proof.
  apply (PackageFacts.package_agrees isEmailValid postAnn "a@b.com" emptyTable).
  reflexivity.
Defined.

End Runs.

(* ===================================================================== *)
(** * What every answer looks like, and when there is none                *)
(* ===================================================================== *)

Module ReplyFacts.
Import Main HandlerFacts.

(** Splits on every call and test a handler makes. *)
Ltac handler_cases :=
  go_unfold;
  repeat (cbv beta in *; first [ rewrite fetchUser_unfold in * | case_match ]);
  simplify_eq.

Section Shape.
Context {St : Type} `{dynaClient : DynamoDBAPI St} `{codec : EncodingJSON}.

Lemma getUser_built (req : Request) (st st' : St) reply :
  getUser req st = Done (reply, st') →
  ∃ code body, reply = (APIResponse code body, None) ∧ (code = 200 ∨ code = 400).
Proof.
  unfold getUser, showUser, listUsers. intros Hrun.
  handler_cases; eexists _, _; (split; [done | by auto]).
Qed.

Lemma deleteUser_built (req : Request) (st st' : St) reply :
  deleteUser req st = Done (reply, st') →
  ∃ code body, reply = (APIResponse code body, None) ∧ (code = 200 ∨ code = 400).
Proof.
  unfold deleteUser. intros Hrun.
  handler_cases; eexists _, _; (split; [done | by auto]).
Qed.

Lemma createUser_built (req : Request) (st st' : St) reply :
  createUser req st = Done (reply, st') →
  ∃ code body, reply = (APIResponse code body, None) ∧
    ((code = 422 ∧ ∃ e, json_Unmarshal (APIGatewayProxyRequest.Body req) = Err e) ∨
     ((code = 201 ∨ code = 400) ∧
      ∃ sent, json_Unmarshal (APIGatewayProxyRequest.Body req) = Ok sent)).
Proof.
  unfold createUser. intros Hrun.
  handler_cases; eexists _, _; (split; [done |]); eauto 6.
Qed.

Lemma updateUser_built (req : Request) (st st' : St) reply :
  updateUser req st = Done (reply, st') →
  ∃ code body, reply = (APIResponse code body, None) ∧
    ((code = 422 ∧ ∃ e, json_Unmarshal (APIGatewayProxyRequest.Body req) = Err e) ∨
     ((code = 201 ∨ code = 400) ∧
      ∃ sent, json_Unmarshal (APIGatewayProxyRequest.Body req) = Ok sent)).
Proof.
  unfold updateUser. intros Hrun.
  handler_cases; eexists _, _; (split; [done |]); eauto 6.
Qed.

(** The method of a request is one of the four, or none of them. *)
Lemma method_cases (m : string) :
  m = "GET" ∨ m = "POST" ∨ m = "PUT" ∨ m = "DELETE" ∨
  (m ≠ "GET" ∧ m ≠ "POST" ∧ m ≠ "PUT" ∧ m ≠ "DELETE").
Proof.
  destruct (decide (m = "GET")); [by left |].
  destruct (decide (m = "POST")); [by right; left |].
  destruct (decide (m = "PUT")); [by right; right; left |].
  destruct (decide (m = "DELETE")); [by right; right; right; left |].
  by right; right; right; right.
Qed.

Lemma handler_other (req : Request) (st : St) :
  let method := APIGatewayProxyRequest.HTTPMethod req in
  method ≠ "GET" → method ≠ "POST" → method ≠ "PUT" → method ≠ "DELETE" →
  handler req st = Done ((APIResponse 405 (errorBody ErrorMethodNotAllowed), None), st).
Proof.
  intros method Hget Hpost Hput Hdel. unfold handler. fold method.
  apply String.eqb_neq in Hget, Hpost, Hput, Hdel.
  by rewrite Hget, Hpost, Hput, Hdel.
Qed.

(** X1.  Whenever the handler returns, the error it returns is nil and the
    response carries the single header [Content-Type: application/json];
    its status is 200 or 400 for GET and DELETE, 201, 400 or 422 for POST
    and PUT; it is 422 exactly when a POST or PUT body does not decode, and
    405 exactly when the method is none of the four. *)
Theorem handler_reply_shape (req : Request) (st st' : St)
    (resp : Response) (err : option error) :
  handler req st = Done ((resp, err), st') →
  let method := APIGatewayProxyRequest.HTTPMethod req in
  let code := APIGatewayProxyResponse.StatusCode resp in
  err = None ∧
  APIGatewayProxyResponse.Headers resp = {["Content-Type" := "application/json"]} ∧
  (method = "GET" ∨ method = "DELETE" → code = 200 ∨ code = 400) ∧
  (method = "POST" ∨ method = "PUT" → code = 201 ∨ code = 400 ∨ code = 422) ∧
  (code = 422 ↔
   (method = "POST" ∨ method = "PUT") ∧
   ∃ e, json_Unmarshal (APIGatewayProxyRequest.Body req) = Err e) ∧
  (code = 405 ↔
   method ≠ "GET" ∧ method ≠ "POST" ∧ method ≠ "PUT" ∧ method ≠ "DELETE").
Proof.
  intros Hrun. cbv zeta.
  destruct (method_cases (APIGatewayProxyRequest.HTTPMethod req))
    as [Hm | [Hm | [Hm | [Hm | Hm]]]].
  - rewrite (handler_GET req Hm) in Hrun.
    apply getUser_built in Hrun as (c & body & [= -> ->] & Hc).
    rewrite Hm. simpl. split_and!; try done.
    + intros [? | ?]; done.
    + split; [intros -> | intros [[? | ?] _]]; by destruct Hc.
    + split; [intros -> | intros (? & _)]; by destruct Hc.
  - rewrite (handler_POST req Hm) in Hrun.
    apply createUser_built in Hrun as (c & body & [= -> ->] & Hc).
    rewrite Hm. simpl. split_and!; try done.
    + intros [? | ?]; done.
    + intros _. destruct Hc as [[-> _] | [[-> | ->] _]]; auto.
    + split.
      * intros ->. destruct Hc as [[_ He] | [[? | ?] _]]; [| done | done].
        split; [by left | done].
      * intros [_ [e He]].
        destruct Hc as [[-> _] | [_ [sent Hsent]]]; [done | congruence].
    + split; [intros -> | intros (_ & ? & _); done].
      destruct Hc as [[? _] | [[? | ?] _]]; done.
  - rewrite (handler_PUT req Hm) in Hrun.
    apply updateUser_built in Hrun as (c & body & [= -> ->] & Hc).
    rewrite Hm. simpl. split_and!; try done.
    + intros [? | ?]; done.
    + intros _. destruct Hc as [[-> _] | [[-> | ->] _]]; auto.
    + split.
      * intros ->. destruct Hc as [[_ He] | [[? | ?] _]]; [| done | done].
        split; [by right | done].
      * intros [_ [e He]].
        destruct Hc as [[-> _] | [_ [sent Hsent]]]; [done | congruence].
    + split; [intros -> | intros (_ & _ & ? & _); done].
      destruct Hc as [[? _] | [[? | ?] _]]; done.
  - rewrite (handler_DELETE req Hm) in Hrun.
    apply deleteUser_built in Hrun as (c & body & [= -> ->] & Hc).
    rewrite Hm. simpl. split_and!; try done.
    + intros [? | ?]; done.
    + split; [intros -> | intros [[? | ?] _]]; by destruct Hc.
    + split; [intros -> | intros (_ & _ & _ & ?)]; by destruct Hc.
  - destruct Hm as (Hget & Hpost & Hput & Hdel).
    rewrite (handler_other req st Hget Hpost Hput Hdel) in Hrun.
    injection Hrun as <- <- <-. simpl. split_and!; try done.
    + intros [? | ?]; done.
    + intros [? | ?]; done.
    + split; [done | intros [[? | ?] _]; done].
Qed.

End Shape.
Section Panics.
Context {St : Type} `{dynaClient : DynamoDBAPI St} `{codec : EncodingJSON}.

(** The lookup of the existence check returns no record: the get-item call
    failed, or the item it returned cannot be decoded. *)
#[local] Abbreviation lookupFails email st :=
  (match GetItem (mkGetItemInput {["email" := AV_S email]} tableName) st with
   | (Err _, _) => True
   | (Ok result, _) => ∃ e, UnmarshalMap (GetItemOutput_Item result) zeroUser = Err e
   end).

Lemma getUser_returns (req : Request) (st : St) :
  ∃ reply st', getUser req st = Done (reply, st').
Proof.
  unfold getUser, showUser, listUsers. handler_cases; by eexists _, _.
Qed.

Lemma deleteUser_returns (req : Request) (st : St) :
  ∃ reply st', deleteUser req st = Done (reply, st').
Proof. unfold deleteUser. handler_cases; by eexists _, _. Qed.

Lemma createUser_panics_iff (req : Request) (st : St) :
  (∃ msg, createUser req st = Panic msg) ↔
  ∃ sent, json_Unmarshal (APIGatewayProxyRequest.Body req) = Ok sent ∧
          isEmailValid (Email sent) = true ∧ lookupFails (Email sent) st.
Proof.
  split.
  - intros [msg Hrun]. unfold createUser in Hrun.
    destruct (json_Unmarshal _) as [sent | e]; [| done].
    exists sent. destruct (isEmailValid (Email sent)); [| done].
    split; [done |]. split; [done |]. simpl in Hrun.
    go_unfold. rewrite fetchUser_unfold in Hrun.
    destruct (GetItem _ st) as [[result | e] st1]; [| done].
    destruct (UnmarshalMap _ _) as [cur | e]; [| by eexists].
    simpl in Hrun. repeat case_match; done.
  - intros (sent & Hbody & Hvalid & Hlookup).
    unfold createUser. rewrite Hbody, Hvalid. simpl.
    go_unfold. rewrite fetchUser_unfold.
    destruct (GetItem _ st) as [[result | e] st1]; [| by eexists].
    destruct Hlookup as [e ->]. by eexists.
Qed.

Lemma updateUser_panics_iff (req : Request) (st : St) :
  (∃ msg, updateUser req st = Panic msg) ↔
  ∃ sent, json_Unmarshal (APIGatewayProxyRequest.Body req) = Ok sent ∧
          lookupFails (Email sent) st.
Proof.
  split.
  - intros [msg Hrun]. unfold updateUser in Hrun.
    destruct (json_Unmarshal _) as [sent | e]; [| done].
    exists sent. split; [done |].
    go_unfold. rewrite fetchUser_unfold in Hrun.
    destruct (GetItem _ st) as [[result | e] st1]; [| done].
    destruct (UnmarshalMap _ _) as [cur | e]; [| by eexists].
    simpl in Hrun. repeat case_match; done.
  - intros (sent & Hbody & Hlookup).
    unfold updateUser. rewrite Hbody.
    go_unfold. rewrite fetchUser_unfold.
    destruct (GetItem _ st) as [[result | e] st1]; [| by eexists].
    destruct Hlookup as [e ->]. by eexists.
Qed.

(** X2.  The handler panics in exactly one situation: the request is a
    POST whose body decodes to a record with an accepted address, or a PUT
    whose body decodes, and the lookup of the existence check gives no
    record, because the get-item call failed or because the stored item
    cannot be decoded.  GET, DELETE and every other method always get a
    response. *)
Theorem handler_panics_iff (req : Request) (st : St) :
  let method := APIGatewayProxyRequest.HTTPMethod req in
  (∃ msg, handler req st = Panic msg) ↔
  ∃ sent,
    json_Unmarshal (APIGatewayProxyRequest.Body req) = Ok sent ∧
    ((method = "POST" ∧ isEmailValid (Email sent) = true) ∨ method = "PUT") ∧
    match GetItem (mkGetItemInput {["email" := AV_S (Email sent)]} tableName) st with
    | (Err _, _) => True
    | (Ok result, _) => ∃ e, UnmarshalMap (GetItemOutput_Item result) zeroUser = Err e
    end.
Proof.
  cbv zeta.
  destruct (method_cases (APIGatewayProxyRequest.HTTPMethod req))
    as [Hm | [Hm | [Hm | [Hm | Hm]]]].
  - rewrite (handler_GET req Hm), Hm. split.
    + intros [msg Hrun].
      destruct (getUser_returns req st) as (reply & st' & Hret). congruence.
    + intros (sent & _ & [[? _] | ?] & _); done.
  - rewrite (handler_POST req Hm), Hm, createUser_panics_iff. split.
    + intros (sent & Hbody & Hvalid & Hlookup). exists sent. auto.
    + intros (sent & Hbody & [[_ Hvalid] | ?] & Hlookup); [| done].
      exists sent. auto.
  - rewrite (handler_PUT req Hm), Hm, updateUser_panics_iff. split.
    + intros (sent & Hbody & Hlookup). exists sent. auto.
    + intros (sent & Hbody & _ & Hlookup). exists sent. auto.
  - rewrite (handler_DELETE req Hm), Hm. split.
    + intros [msg Hrun].
      destruct (deleteUser_returns req st) as (reply & st' & Hret). congruence.
    + intros (sent & _ & [[? _] | ?] & _); done.
  - destruct Hm as (Hget & Hpost & Hput & Hdel).
    rewrite (handler_other req st Hget Hpost Hput Hdel). split.
    + intros [msg ?]. done.
    + intros (sent & _ & [[? _] | ?] & _); done.
Qed.

(** X3.  [FetchUsers] of [package user] and [listUsers] of [package main]
    make the same scan of the same table and leave the store in the same
    state: when the scan succeeds the function returns its output with a
    nil error and the handler answers HTTP 200 with that output; when it
    fails the function returns a nil output with an error and the handler
    answers HTTP 400. *)
Theorem FetchUsers_listUsers (st : St) :
  match user.FetchUsers tableName st, listUsers st with
  | Done ((out, err), st1), Done ((resp, e), st2) =>
      st1 = st2 ∧ e = None ∧
      ((∃ result, Scan (mkScanInput tableName) st = (Ok result, st1) ∧
                  out = Some result ∧ err = None ∧
                  resp = APIResponse 200 (Some (VScanOutput result))) ∨
       (∃ failure, Scan (mkScanInput tableName) st = (Err failure, st1) ∧
                  out = None ∧ err = Some user.ErrorFailedToFetchRecord ∧
                  resp = APIResponse 400 (errorBody ErrorFailedToFetchRecord)))
  | _, _ => False
  end.
Proof.
  unfold user.FetchUsers, listUsers. go_unfold.
  destruct (Scan _ st) as [[result | failure] st1]; simpl.
  - split_and!; try done. left. by exists result.
  - split_and!; try done. right. by exists failure.
Qed.

(** X4.  The functions of [package user] that return a value and an error
    return exactly one of the two: whenever one of them returns, the value
    is nil if and only if the error is not.  This holds for every store
    client, table name and validator. *)
Theorem package_value_or_error (isEmailValid : string → bool) (req : Request)
    (email tbl : string) (st : St) :
  (∀ u err st', user.FetchUser email tbl st = Done ((u, err), st') →
                (u = None ↔ err ≠ None)) ∧
  (∀ out err st', user.FetchUsers tbl st = Done ((out, err), st') →
                (out = None ↔ err ≠ None)) ∧
  (∀ u err st', user.CreateUser isEmailValid req tbl st = Done ((u, err), st') →
                (u = None ↔ err ≠ None)) ∧
  (∀ u err st', user.UpdateUser req tbl st = Done ((u, err), st') →
                (u = None ↔ err ≠ None)).
Proof.
  split_and!; intros u err st' Hrun.
  - unfold user.FetchUser in Hrun. go_unfold. repeat case_match; by simplify_eq.
  - unfold user.FetchUsers in Hrun. go_unfold. repeat case_match; by simplify_eq.
  - unfold user.CreateUser, user.FetchUser in Hrun. go_unfold.
    repeat case_match; by simplify_eq.
  - unfold user.UpdateUser, user.FetchUser in Hrun. go_unfold.
    repeat case_match; by simplify_eq.
Qed.

End Panics.
End ReplyFacts.

(* ===================================================================== *)
(** * The handlers and the rows of the in-memory table                    *)
(* ===================================================================== *)

Module TableFacts.
Import Main HandlerFacts ReplyFacts TableInv.

Section Rows.
Context `{codec : EncodingJSON}.

Lemma keyOf_key (email k : string) :
  MemStore.keyOf {["email" := AV_S email]} = Some k → k = email ∧ email ≠ "".
Proof.
  unfold MemStore.keyOf. rewrite lookup_singleton_eq.
  destruct (String.eqb_spec email ""); [done |]. by intros [= <-].
Qed.

Lemma keyOf_item (u : User) (av : AttrMap) (k : string) :
  MarshalMap u = Ok av → MemStore.keyOf av = Some k → k = Email u ∧ Email u ≠ "".
Proof.
  intros [= <-]. unfold MemStore.keyOf. rewrite lookup_insert_eq.
  unfold encodeString. destruct (len (Email u) =? 0) eqn:Hlen; [done |].
  destruct (String.eqb_spec (Email u) ""); [done |]. by intros [= <-].
Qed.

(** A get-item call leaves the rows alone and returns the row of its key. *)
Lemma GetItem_rows (input : GetItemInput) (st st' : MemStore.t) r :
  GetItem input st = (r, st') →
  MemStore.rows st' = MemStore.rows st ∧ MemStore.name st' = MemStore.name st ∧
  ∀ result, r = Ok result →
    ∃ k, MemStore.keyOf (GetItemInput_Key input) = Some k ∧
         GetItemOutput_Item result = MemStore.rows st !! k.
Proof.
  unfold GetItem, MemStore.client, MemStore.getItem, MemStore.attempt.
  intros Hrun. repeat case_match; simplify_eq; simpl; split_and!; try done.
  all: intros result [= <-]; eauto.
Qed.

Lemma Scan_rows (input : ScanInput) (st st' : MemStore.t) r :
  Scan input st = (r, st') →
  MemStore.rows st' = MemStore.rows st ∧ MemStore.name st' = MemStore.name st.
Proof.
  unfold Scan, MemStore.client, MemStore.scan, MemStore.attempt.
  intros Hrun. by repeat case_match; simplify_eq.
Qed.

(** A put-item call fails and leaves the rows alone, or writes its item
    under the item's key. *)
Lemma PutItem_rows (input : PutItemInput) (st st' : MemStore.t) r :
  PutItem input st = (r, st') →
  MemStore.name st' = MemStore.name st ∧
  ((∃ e, r = Err e ∧ MemStore.rows st' = MemStore.rows st) ∨
   (∃ out k, r = Ok out ∧ MemStore.keyOf (PutItemInput_Item input) = Some k ∧
             MemStore.rows st' = <[k := PutItemInput_Item input]> (MemStore.rows st))).
Proof.
  unfold PutItem, MemStore.client, MemStore.putItem, MemStore.attempt.
  intros Hrun. repeat case_match; simplify_eq; simpl; (split; [done |]); eauto 6.
Qed.

Lemma DeleteItem_rows (input : DeleteItemInput) (st st' : MemStore.t) r :
  DeleteItem input st = (r, st') →
  MemStore.name st' = MemStore.name st ∧
  ((∃ e, r = Err e ∧ MemStore.rows st' = MemStore.rows st) ∨
   (∃ out k, r = Ok out ∧ MemStore.keyOf (DeleteItemInput_Key input) = Some k ∧
             MemStore.rows st' = delete k (MemStore.rows st))).
Proof.
  unfold DeleteItem, MemStore.client, MemStore.deleteItem, MemStore.attempt.
  intros Hrun. repeat case_match; simplify_eq; simpl; (split; [done |]); eauto 6.
Qed.

(** A lookup that returns a record read the row of the address. *)
Lemma fetchUser_rows (email : string) (st st1 : MemStore.t) cur err :
  fetchUser email st = Done ((Some cur, err), st1) →
  MemStore.rows st1 = MemStore.rows st ∧ MemStore.name st1 = MemStore.name st ∧
  email ≠ "" ∧ UnmarshalMap (MemStore.rows st !! email) zeroUser = Ok cur.
Proof.
  rewrite fetchUser_unfold. intros Hrun.
  destruct (GetItem _ st) as [[result | e] st'] eqn:Hget; [| done].
  apply GetItem_rows in Hget as (Hrows & Hname & Hitem).
  destruct (Hitem result eq_refl) as (k & Hk & Hresult).
  apply keyOf_key in Hk as [-> Hne]. rewrite Hresult in Hrun.
  destruct (UnmarshalMap _ _) as [item | e] eqn:Hdec; [| done].
  by simplify_eq.
Qed.

(** Whatever a lookup returns, it leaves the rows alone. *)
Lemma fetchUser_keeps (email : string) (st st1 : MemStore.t) r :
  fetchUser email st = Done (r, st1) →
  MemStore.rows st1 = MemStore.rows st ∧ MemStore.name st1 = MemStore.name st.
Proof.
  rewrite fetchUser_unfold. intros Hrun.
  destruct (GetItem _ st) as [[result | e] st'] eqn:Hget;
    apply GetItem_rows in Hget as (Hrows & Hname & _);
    repeat case_match; by simplify_eq.
Qed.

(** On a table written by the service, the record a lookup decodes is the
    zero record when the address has no row, and has the address
    otherwise. *)
Lemma written_decodes (rows : gmap string AttrMap) (email : string) (cur : User) :
  written rows →
  UnmarshalMap (rows !! email) zeroUser = Ok cur →
  (rows !! email = None ∧ cur = zeroUser) ∨
  (∃ av, rows !! email = Some av ∧ MarshalMap cur = Ok av ∧
         Email cur = email ∧ email ≠ "").
Proof.
  intros Hw Hdec. destruct (rows !! email) as [item |] eqn:Hrow.
  - right. destruct (Hw email item Hrow) as (Hne & u & Hu & Hav).
    destruct (UnmarshalMap_MarshalMap u zeroUser) as (av & Hav' & Hrt).
    assert (av = item) as -> by congruence.
    exists item. rewrite Hrt in Hdec. by simplify_eq.
  - left. simpl in Hdec. by simplify_eq.
Qed.

Lemma written_insert (rows : gmap string AttrMap) (u : User) (av : AttrMap) :
  written rows → Email u ≠ "" → MarshalMap u = Ok av →
  written (<[Email u := av]> rows).
Proof.
  intros Hw Hne Hav k item Hrow.
  destruct (decide (Email u = k)) as [<- | Hk].
  - rewrite lookup_insert_eq in Hrow. simplify_eq. eauto.
  - rewrite lookup_insert_ne in Hrow by done. by apply Hw.
Qed.

Lemma written_delete (rows : gmap string AttrMap) (k : string) :
  written rows → written (delete k rows).
Proof.
  intros Hw k' item Hrow. apply lookup_delete_Some in Hrow as [_ Hrow]. by apply Hw.
Qed.

(** The write of a record, as both write handlers make it. *)
Lemma write_rows (sent : User) (av : AttrMap) (st1 st2 : MemStore.t) r :
  MarshalMap sent = Ok av →
  PutItem (mkPutItemInput av tableName) st1 = (r, st2) →
  MemStore.name st2 = MemStore.name st1 ∧
  ((∃ e, r = Err e ∧ MemStore.rows st2 = MemStore.rows st1) ∨
   (∃ out, r = Ok out ∧ Email sent ≠ "" ∧
           MemStore.rows st2 = <[Email sent := av]> (MemStore.rows st1))).
Proof.
  intros Hav Hput. apply PutItem_rows in Hput as (Hname & Hrows).
  split; [done |]. destruct Hrows as [? | (out & k & -> & Hk & Hrows)]; [by left |].
  simpl in Hk, Hrows. apply (keyOf_item sent av k Hav) in Hk as [-> Hne].
  right. eauto.
Qed.

(** What [createUser] does to the rows when it returns. *)
Lemma createUser_rows (req : Request) (st st' : MemStore.t) resp err :
  createUser req st = Done ((resp, err), st') →
  MemStore.name st' = MemStore.name st ∧
  ((APIGatewayProxyResponse.StatusCode resp ≠ 201 ∧
    MemStore.rows st' = MemStore.rows st) ∨
   (APIGatewayProxyResponse.StatusCode resp = 201 ∧
    ∃ sent av cur,
      json_Unmarshal (APIGatewayProxyRequest.Body req) = Ok sent ∧
      isEmailValid (Email sent) = true ∧ Email sent ≠ "" ∧
      MarshalMap sent = Ok av ∧
      UnmarshalMap (MemStore.rows st !! Email sent) zeroUser = Ok cur ∧
      Email cur = "" ∧
      MemStore.rows st' = <[Email sent := av]> (MemStore.rows st))).
Proof.
  intros Hrun.
  destruct (json_Unmarshal (APIGatewayProxyRequest.Body req)) as [sent | e] eqn:Hbody.
  2:{ unfold createUser in Hrun. rewrite Hbody in Hrun. go_unfold.
      simplify_eq. split; [done | left; by split]. }
  destruct (isEmailValid (Email sent)) eqn:Hvalid.
  2:{ unfold createUser in Hrun. rewrite Hbody, Hvalid in Hrun. go_unfold.
      cbn [negb] in Hrun. simplify_eq. split; [done | left; by split]. }
  destruct (fetchUser_returns (Email sent) st) as (u & e & st1 & Hfetch & _).
  destruct u as [cur |].
  2:{ destruct (createUser_nil req st st1 sent e Hbody Hvalid Hfetch). congruence. }
  rewrite (createUser_found req st st1 sent cur e Hbody Hvalid Hfetch) in Hrun.
  apply fetchUser_rows in Hfetch as (Hrows & Hname & Hne & Hdec).
  destruct (decide (Email cur = "")) as [Hcur | Hcur];
    [| simplify_eq; split; [done | left; by split]].
  destruct (MarshalMap_ok sent) as [av Hav]. rewrite Hav in Hrun.
  destruct (PutItem _ st1) as [r st2] eqn:Hput.
  apply (write_rows sent av st1 st2 r Hav) in Hput as (Hname2 & Hwrite).
  destruct Hwrite as [(e' & -> & Hrows2) | (out & -> & _ & Hrows2)]; simplify_eq.
  - split; [congruence |]. left. split; [done | congruence].
  - split; [congruence |]. right. split; [done |]. exists sent, av, cur.
    rewrite Hrows2, Hrows. by split_and!.
Qed.

(** What [updateUser] does to the rows when it returns. *)
Lemma updateUser_rows (req : Request) (st st' : MemStore.t) resp err :
  updateUser req st = Done ((resp, err), st') →
  MemStore.name st' = MemStore.name st ∧
  ((APIGatewayProxyResponse.StatusCode resp ≠ 201 ∧
    MemStore.rows st' = MemStore.rows st) ∨
   (APIGatewayProxyResponse.StatusCode resp = 201 ∧
    ∃ sent av cur,
      json_Unmarshal (APIGatewayProxyRequest.Body req) = Ok sent ∧
      Email sent ≠ "" ∧
      MarshalMap sent = Ok av ∧
      UnmarshalMap (MemStore.rows st !! Email sent) zeroUser = Ok cur ∧
      Email cur ≠ "" ∧
      MemStore.rows st' = <[Email sent := av]> (MemStore.rows st))).
Proof.
  intros Hrun.
  destruct (json_Unmarshal (APIGatewayProxyRequest.Body req)) as [sent | e] eqn:Hbody.
  2:{ unfold updateUser in Hrun. rewrite Hbody in Hrun. go_unfold.
      simplify_eq. split; [done | left; by split]. }
  destruct (fetchUser_returns (Email sent) st) as (u & e & st1 & Hfetch & _).
  destruct u as [cur |].
  2:{ destruct (updateUser_nil req st st1 sent e Hbody Hfetch). congruence. }
  rewrite (updateUser_found req st st1 sent cur e Hbody Hfetch) in Hrun.
  apply fetchUser_rows in Hfetch as (Hrows & Hname & Hne & Hdec).
  destruct (decide (Email cur = "")) as [Hcur | Hcur];
    [simplify_eq; split; [done | left; by split] |].
  destruct (MarshalMap_ok sent) as [av Hav]. rewrite Hav in Hrun.
  destruct (PutItem _ st1) as [r st2] eqn:Hput.
  apply (write_rows sent av st1 st2 r Hav) in Hput as (Hname2 & Hwrite).
  destruct Hwrite as [(e' & -> & Hrows2) | (out & -> & _ & Hrows2)]; simplify_eq.
  - split; [congruence |]. left. split; [done | congruence].
  - split; [congruence |]. right. split; [done |]. exists sent, av, cur.
    rewrite Hrows2, Hrows. by split_and!.
Qed.

Lemma getUser_rows (req : Request) (st st' : MemStore.t) reply :
  getUser req st = Done (reply, st') →
  MemStore.rows st' = MemStore.rows st ∧ MemStore.name st' = MemStore.name st.
Proof.
  unfold getUser, showUser, listUsers. intros Hrun. go_unfold.
  destruct (len _ >? 0).
  - destruct (fetchUser _ st) as [[r st1] | msg] eqn:Hfetch; [| done].
    apply fetchUser_keeps in Hfetch. repeat case_match; by simplify_eq.
  - destruct (Scan _ st) as [r st1] eqn:Hscan.
    apply Scan_rows in Hscan. repeat case_match; by simplify_eq.
Qed.

Lemma deleteUser_rows (req : Request) (st st' : MemStore.t) reply :
  deleteUser req st = Done (reply, st') →
  MemStore.name st' = MemStore.name st ∧
  (MemStore.rows st' = MemStore.rows st ∨
   MemStore.rows st' =
   delete (index (APIGatewayProxyRequest.QueryStringParameters req) "email")
          (MemStore.rows st)).
Proof.
  unfold deleteUser. intros Hrun. go_unfold.
  destruct (DeleteItem _ st) as [r st1] eqn:Hdel.
  apply DeleteItem_rows in Hdel as (Hname & Hrows).
  assert (st' = st1) as -> by (repeat case_match; by simplify_eq).
  split; [done |].
  destruct Hrows as [(e & _ & ?) | (out & k & _ & Hk & ?)]; [by left |].
  simpl in Hk. apply keyOf_key in Hk as [-> _]. by right.
Qed.

(** X5.  The handler keeps the table one that only the service wrote: if
    every row is the encoding of a record stored under the record's own
    non-empty address, the same holds after any request the handler
    answers, whatever the failures of the store on the way. *)
Theorem handler_keeps_written (req : Request) (st st' : MemStore.t) (reply : reply) :
  written (MemStore.rows st) →
  handler req st = Done (reply, st') →
  written (MemStore.rows st') ∧ MemStore.name st' = MemStore.name st.
Proof.
  intros Hw Hrun. destruct reply as [resp err].
  destruct (method_cases (APIGatewayProxyRequest.HTTPMethod req))
    as [Hm | [Hm | [Hm | [Hm | Hm]]]].
  - rewrite (handler_GET req Hm) in Hrun.
    apply getUser_rows in Hrun as [-> ->]. done.
  - rewrite (handler_POST req Hm) in Hrun.
    apply createUser_rows in Hrun as (Hname & [[_ ->] | (_ & sent & av & cur & Hrows)]);
      [done |].
    destruct Hrows as (_ & _ & Hne & Hav & _ & _ & ->).
    split; [by apply written_insert | done].
  - rewrite (handler_PUT req Hm) in Hrun.
    apply updateUser_rows in Hrun as (Hname & [[_ ->] | (_ & sent & av & cur & Hrows)]);
      [done |].
    destruct Hrows as (_ & Hne & Hav & _ & _ & ->).
    split; [by apply written_insert | done].
  - rewrite (handler_DELETE req Hm) in Hrun.
    apply deleteUser_rows in Hrun as (Hname & [-> | ->]); [done |].
    split; [by apply written_delete | done].
  - destruct Hm as (Hget & Hpost & Hput & Hdel).
    rewrite (handler_other req st Hget Hpost Hput Hdel) in Hrun. by simplify_eq.
Qed.

(** X6.  A request touches at most the row of its own address: a GET or a
    request with another method changes no row; a POST or PUT whose body
    does not decode changes no row, and one whose body decodes changes no
    row but that of the decoded address; a DELETE changes no row but that
    of the [email] parameter. *)
Theorem handler_touches_one_row (req : Request) (st st' : MemStore.t) (reply : reply) :
  handler req st = Done (reply, st') →
  let method := APIGatewayProxyRequest.HTTPMethod req in
  let body := APIGatewayProxyRequest.Body req in
  (method ≠ "POST" → method ≠ "PUT" → method ≠ "DELETE" →
   MemStore.rows st' = MemStore.rows st) ∧
  (method = "POST" ∨ method = "PUT" →
   (∀ e, json_Unmarshal body = Err e → MemStore.rows st' = MemStore.rows st) ∧
   (∀ sent k, json_Unmarshal body = Ok sent → k ≠ Email sent →
              MemStore.rows st' !! k = MemStore.rows st !! k)) ∧
  (method = "DELETE" →
   ∀ k, k ≠ index (APIGatewayProxyRequest.QueryStringParameters req) "email" →
        MemStore.rows st' !! k = MemStore.rows st !! k).
Proof.
  intros Hrun. cbv zeta. destruct reply as [resp err].
  destruct (method_cases (APIGatewayProxyRequest.HTTPMethod req))
    as [Hm | [Hm | [Hm | [Hm | Hm]]]].
  - rewrite (handler_GET req Hm) in Hrun.
    apply getUser_rows in Hrun as [-> _]. rewrite Hm.
    split_and!; [done | intros [? | ?]; done | done].
  - rewrite (handler_POST req Hm) in Hrun.
    apply createUser_rows in Hrun as (_ & Hrows). rewrite Hm.
    split_and!; [done | | done]. intros _.
    destruct Hrows as [[_ ->] | (_ & sent & av & cur & Hbody & _ & _ & _ & _ & _ & ->)];
      [done |].
    split; [intros e He; congruence |].
    intros sent' k Hbody' Hk. assert (sent' = sent) as -> by congruence.
    by rewrite lookup_insert_ne.
  - rewrite (handler_PUT req Hm) in Hrun.
    apply updateUser_rows in Hrun as (_ & Hrows). rewrite Hm.
    split_and!; [done | | done]. intros _.
    destruct Hrows as [[_ ->] | (_ & sent & av & cur & Hbody & _ & _ & _ & _ & ->)];
      [done |].
    split; [intros e He; congruence |].
    intros sent' k Hbody' Hk. assert (sent' = sent) as -> by congruence.
    by rewrite lookup_insert_ne.
  - rewrite (handler_DELETE req Hm) in Hrun.
    apply deleteUser_rows in Hrun as (_ & Hrows). rewrite Hm.
    split_and!; [done | intros [? | ?]; done |]. intros _ k Hk.
    destruct Hrows as [-> | ->]; [done |]. by rewrite lookup_delete_ne.
  - destruct Hm as (Hget & Hpost & Hput & Hdel).
    rewrite (handler_other req st Hget Hpost Hput Hdel) in Hrun. simplify_eq.
    split_and!; [done | intros [? | ?]; done | done].
Qed.

(** X7.  On a table that only the service wrote, the create handler never
    overwrites: it answers HTTP 201 only when the decoded address is
    accepted and has no row, and the table then gains exactly the encoding
    of the decoded record under that address; with any other answer the
    rows are as before. *)
Theorem createUser_adds_fresh_row (req : Request) (st st' : MemStore.t)
    (resp : Response) (err : option error) :
  written (MemStore.rows st) →
  createUser req st = Done ((resp, err), st') →
  (APIGatewayProxyResponse.StatusCode resp = 201 →
   ∃ sent av,
     json_Unmarshal (APIGatewayProxyRequest.Body req) = Ok sent ∧
     isEmailValid (Email sent) = true ∧
     MarshalMap sent = Ok av ∧
     MemStore.rows st !! Email sent = None ∧
     MemStore.rows st' = <[Email sent := av]> (MemStore.rows st)) ∧
  (APIGatewayProxyResponse.StatusCode resp ≠ 201 →
   MemStore.rows st' = MemStore.rows st).
Proof.
  intros Hw Hrun.
  apply createUser_rows in Hrun as (_ & [[Hcode Hrows] | (Hcode & Hrows)]).
  - by split.
  - split; [intros _ | done].
    destruct Hrows as (sent & av & cur & Hbody & Hvalid & Hne & Hav & Hdec & Hcur & Hrows).
    exists sent, av. split_and!; try done.
    destruct (written_decodes _ _ _ Hw Hdec) as [[Hrow _] | (? & _ & _ & Hsame & _)];
      [done | congruence].
Qed.

(** X8.  The update handler never creates: it answers HTTP 201 only when
    the decoded address already has a row, which is then replaced as a
    whole by the encoding of the decoded record; with any other answer the
    rows are as before.  The address is not validated on this path. *)
Theorem updateUser_replaces_row (req : Request) (st st' : MemStore.t)
    (resp : Response) (err : option error) :
  updateUser req st = Done ((resp, err), st') →
  (APIGatewayProxyResponse.StatusCode resp = 201 →
   ∃ sent av old,
     json_Unmarshal (APIGatewayProxyRequest.Body req) = Ok sent ∧
     MarshalMap sent = Ok av ∧
     MemStore.rows st !! Email sent = Some old ∧
     MemStore.rows st' = <[Email sent := av]> (MemStore.rows st)) ∧
  (APIGatewayProxyResponse.StatusCode resp ≠ 201 →
   MemStore.rows st' = MemStore.rows st).
Proof.
  intros Hrun.
  apply updateUser_rows in Hrun as (_ & [[Hcode Hrows] | (Hcode & Hrows)]).
  - by split.
  - split; [intros _ | done].
    destruct Hrows as (sent & av & cur & Hbody & Hne & Hav & Hdec & Hcur & Hrows).
    destruct (MemStore.rows st !! Email sent) as [old |] eqn:Hrow.
    + exists sent, av, old. by split_and!.
    + simpl in Hdec. by simplify_eq.
Qed.

Lemma written_decodable (rows : gmap string AttrMap) (email : string) :
  written rows → ∃ cur, UnmarshalMap (rows !! email) zeroUser = Ok cur.
Proof.
  intros Hw. destruct (rows !! email) as [item |] eqn:Hrow; [| by eexists].
  destruct (Hw email item Hrow) as (_ & u & _ & Hav).
  destruct (UnmarshalMap_MarshalMap u zeroUser) as (av & Hav' & Hrt).
  assert (av = item) as -> by congruence. eauto.
Qed.

(** X9.  On a working store that only the service wrote, a PUT for an
    address that has a row is answered HTTP 201 and replaces the whole row:
    a lookup of the address right after returns the record that was sent.
    The address is not checked by the validator on this path. *)
Theorem update_then_fetch (rows : gmap string AttrMap) (put : Request)
    (sent : User) (old : AttrMap) :
  written rows →
  json_Unmarshal (APIGatewayProxyRequest.Body put) = Ok sent →
  rows !! Email sent = Some old →
  ∃ av,
    MarshalMap sent = Ok av ∧
    updateUser put (MemStore.reliable rows)
    = Done ((APIResponse 201 None, None), MemStore.reliable (<[Email sent := av]> rows)) ∧
    fetchUser (Email sent) (MemStore.reliable (<[Email sent := av]> rows))
    = Done ((Some sent, None), MemStore.reliable (<[Email sent := av]> rows)).
Proof.
  intros Hw Hbody Hrow.
  destruct (Hw _ _ Hrow) as (Hne & u & Hu & Hold).
  destruct (MarshalMap_ok sent) as [av Hav]. exists av. split; [done |].
  assert (Hfetch : fetchUser (Email sent) (MemStore.reliable rows)
                   = Done ((Some u, None), MemStore.reliable rows)).
  { rewrite <- Hu. apply (fetchUser_stored rows u old); congruence. }
  split.
  - rewrite (updateUser_found put _ _ sent u None Hbody Hfetch).
    destruct (decide (Email u = "")); [congruence |].
    by rewrite Hav, (putItem_reliable rows sent av Hne Hav).
  - apply (fetchUser_stored _ sent av); [done | done | by rewrite lookup_insert_eq].
Qed.

(** X10.  On a working store, deleting an address is answered HTTP 200 and
    removes its row if there is one; deleting it again changes nothing; a
    lookup then finds the zero record, and a POST of a record with that
    address, if the validator accepts it, is answered HTTP 201 and stores
    the record. *)
Theorem delete_then_create (rows : gmap string AttrMap) (del post : Request)
    (sent : User) :
  let email := index (APIGatewayProxyRequest.QueryStringParameters del) "email" in
  let gone := MemStore.reliable (delete email rows) in
  let deleted := APIResponse 200 (Some (VDeleteItemOutput (mkDeleteItemOutput None))) in
  json_Unmarshal (APIGatewayProxyRequest.Body post) = Ok sent →
  Email sent = email →
  isEmailValid email = true →
  deleteUser del (MemStore.reliable rows) = Done ((deleted, None), gone) ∧
  deleteUser del gone = Done ((deleted, None), gone) ∧
  fetchUser email gone = Done ((Some zeroUser, None), gone) ∧
  ∃ av, MarshalMap sent = Ok av ∧
        createUser post gone
        = Done ((APIResponse 201 None, None), MemStore.reliable (<[email := av]> rows)).
Proof.
  intros email gone deleted Hbody Hsame Hvalid.
  pose proof (isEmailValid_nonempty _ Hvalid) as Hne.
  assert (Hdel : ∀ r, deleteUser del (MemStore.reliable r)
                      = Done ((deleted, None), MemStore.reliable (delete email r))).
  { intros r. unfold deleteUser. fold email. go_unfold.
    by rewrite deleteItem_reliable. }
  split; [apply Hdel |].
  split; [unfold gone; by rewrite Hdel, delete_delete_eq |].
  split; [apply fetchUser_absent; [done | apply lookup_delete_eq] |].
  destruct (MarshalMap_ok sent) as [av Hav]. exists av. split; [done |].
  unfold gone. rewrite <- (insert_delete_eq rows email av), <- Hsame.
  apply createUser_fresh; try done; rewrite Hsame; [done | apply lookup_delete_eq].
Qed.

(** X11.  On a working store that only the service wrote, the handler
    answers every request, but a PUT whose body decodes to a record with an
    empty address: with no store failure and no foreign row, the lookup of
    the existence check always returns a record. *)
Theorem handler_answers_on_working_store (rows : gmap string AttrMap) (req : Request) :
  written rows →
  (APIGatewayProxyRequest.HTTPMethod req = "PUT" →
   ∀ sent, json_Unmarshal (APIGatewayProxyRequest.Body req) = Ok sent → Email sent ≠ "") →
  ∃ reply st', handler req (MemStore.reliable rows) = Done (reply, st').
Proof.
  intros Hw Hput.
  assert (Hlookup : ∀ email, email ≠ "" →
            ¬ match GetItem (mkGetItemInput {["email" := AV_S email]} tableName)
                      (MemStore.reliable rows) with
              | (Err _, _) => True
              | (Ok result, _) =>
                  ∃ e, UnmarshalMap (GetItemOutput_Item result) zeroUser = Err e
              end).
  { intros email Hne. rewrite getItem_reliable by done. simpl.
    destruct (written_decodable rows email Hw) as [cur ->]. by intros [e ?]. }
  destruct (handler req (MemStore.reliable rows)) as [[reply st'] | msg] eqn:Hrun;
    [by eexists _, _ | exfalso].
  destruct (method_cases (APIGatewayProxyRequest.HTTPMethod req))
    as [Hm | [Hm | [Hm | [Hm | Hm]]]].
  - rewrite (handler_GET req Hm) in Hrun.
    destruct (getUser_returns req (MemStore.reliable rows)) as (? & ? & ?). congruence.
  - rewrite (handler_POST req Hm) in Hrun.
    destruct (proj1 (createUser_panics_iff req (MemStore.reliable rows)))
      as (sent & Hbody & Hvalid & Hfail); [by eexists |].
    by apply (Hlookup (Email sent) (isEmailValid_nonempty _ Hvalid)).
  - rewrite (handler_PUT req Hm) in Hrun.
    destruct (proj1 (updateUser_panics_iff req (MemStore.reliable rows)))
      as (sent & Hbody & Hfail); [by eexists |].
    by apply (Hlookup (Email sent) (Hput Hm sent Hbody)).
  - rewrite (handler_DELETE req Hm) in Hrun.
    destruct (deleteUser_returns req (MemStore.reliable rows)) as (? & ? & ?). congruence.
  - destruct Hm as (Hget & Hpost & Hput' & Hdel).
    by rewrite (handler_other req _ Hget Hpost Hput' Hdel) in Hrun.
Qed.

End Rows.
End TableFacts.

(* ===================================================================== *)
(** * More on the addresses the validator accepts                         *)
(* ===================================================================== *)

Module AddressFacts.
Import Regexp EmailSpec ValidatorFacts.
Local Open Scope nat_scope.
Local Open Scope list_scope.

(** A byte is printable ASCII and not a space. *)
#[local] Abbreviation visible c := (33 ≤ nat_of_ascii c ≤ 126).

Lemma visible_test c :
  (33 <=? nat_of_ascii c) && (nat_of_ascii c <=? 126) = true → visible c.
Proof. rewrite andb_true_iff, !Nat.leb_le. lia. Qed.

Lemma localChar_visible c : localChar c = true → visible c.
Proof.
  intros Hc. apply visible_test. revert Hc.
  by destruct c as [[] [] [] [] [] [] [] []].
Qed.

Lemma labelChar_visible c : labelChar c = true → visible c.
Proof.
  intros Hc. apply visible_test. revert Hc.
  by destruct c as [[] [] [] [] [] [] [] []].
Qed.

Lemma isLabel_visible l : isLabel l → Forall (λ c, visible c) l.
Proof.
  intros (_ & Hall & _). eapply Forall_impl; [exact Hall |].
  intros c Hc. by apply labelChar_visible.
Qed.

Lemma more_labels_visible ls :
  Forall isLabel ls → Forall (λ c, visible c) (concat (map (cons "."%char) ls)).
Proof.
  induction 1 as [|l ls Hl _ IH]; simpl; [constructor |].
  constructor; [by apply visible_test |].
  apply Forall_app. split; [by apply isLabel_visible | done].
Qed.

(** The last byte of a domain is the last byte of its last label. *)
Lemma dotted_last l ls :
  isLabel l → Forall isLabel ls →
  ∃ c, last (dotted l ls) = Some c ∧ letterOrDigit c = true.
Proof.
  intros Hl Hls. revert l Hl. unfold dotted.
  induction Hls as [|l' ls Hl' _ IH]; intros l Hl; simpl.
  - rewrite app_nil_r. by destruct Hl as (_ & _ & _ & Hlast).
  - destruct (IH l' Hl') as (c & Hc & Hletter). exists c. split; [| done].
    rewrite last_app, last_cons. simpl. by rewrite Hc.
Qed.

Lemma length_string_of_list_ascii (l : list ascii) :
  String.length (string_of_list_ascii l) = length l.
Proof. induction l as [|c l IH]; simpl; [done | by rewrite IH]. Qed.

(** X12.  An address the validator accepts is made of printable ASCII
    bytes other than the space, so it holds no blank, control byte, line
    end or byte of a multi-byte character, and its last byte is a letter or
    a digit. *)
Theorem accepted_bytes (email : string) :
  Main.isEmailValid email = true →
  Forall (λ c, 33 ≤ nat_of_ascii c ≤ 126) (list_ascii_of_string email) ∧
  ∃ c, last (list_ascii_of_string email) = Some c ∧ letterOrDigit c = true.
Proof.
  intros Hvalid. apply isEmailValid_ValidEmail in Hvalid
    as (_ & loc & d & -> & (_ & Hloc) & (l & ls & -> & Hl & Hls)).
  split.
  - apply Forall_app. split.
    + eapply Forall_impl; [exact Hloc |]. intros c Hc. by apply localChar_visible.
    + constructor; [by apply visible_test |]. unfold dotted. apply Forall_app.
      split; [by apply isLabel_visible | by apply more_labels_visible].
  - destruct (dotted_last l ls Hl Hls) as (c & Hc & Hletter).
    exists c. split; [| done].
    rewrite last_app, last_cons. by rewrite Hc.
Qed.

(** X13.  A domain needs no dot: any local part of 1 to 64 allowed bytes,
    an [@], and a single label of 1 to 63 letters, digits and inner hyphens
    is accepted; the bounds on the whole length cannot fail for it. *)
Theorem single_label_accepted (loc l : list ascii) :
  isLocalPart loc → isLabel l →
  Main.isEmailValid (string_of_list_ascii (loc ++ "@"%char :: l)) = true.
Proof.
  intros Hloc Hl. apply isEmailValid_ValidEmail. split.
  - rewrite length_string_of_list_ascii, length_app. simpl.
    destruct Hloc as [? _], Hl as [? _]. lia.
  - exists loc, l. rewrite list_ascii_of_string_of_list_ascii.
    split; [done |]. split; [done |].
    exists l, []. unfold dotted. simpl. rewrite app_nil_r. by split_and!.
Qed.

End AddressFacts.

(* ===================================================================== *)
(** * More runs on the in-memory table                                    *)
(* ===================================================================== *)

Module MoreRuns.
Import Main Samples MoreSamples TableInv EmailSpec.

Lemma written_empty : written (MemStore.rows emptyTable).
Proof. intros k item Hrow. done. Qed.

Lemma written_ann : written {["a@b.com" := annItem]}.
Proof.
  intros k item Hrow. apply lookup_singleton_Some in Hrow as [<- <-].
  split; [done |]. by exists ann.
Qed.

(** The answer to [postAnn] on the empty table. *)
Lemma handler_reply_shape_run :
  @None error = None ∧
  APIGatewayProxyResponse.Headers (APIResponse 201 None)
  = {["Content-Type" := "application/json"]}.
Proof.
  destruct (ReplyFacts.handler_reply_shape postAnn emptyTable annTable
              (APIResponse 201 None) None) as (Herr & Hheaders & _).
  - vm_compute. reflexivity.
  - exact (conj Herr Hheaders).
Defined.

(** The table after [postAnn] on the empty table. *)
Lemma handler_keeps_written_run :
  written (MemStore.rows annTable) ∧ MemStore.name annTable = MemStore.name emptyTable.
Proof.
  apply (TableFacts.handler_keeps_written postAnn emptyTable annTable
           (APIResponse 201 None, None) written_empty).
  vm_compute. reflexivity.
Defined.

(** [postAnn] leaves the row of another address alone. *)
Lemma handler_touches_one_row_run :
  MemStore.rows annTable !! "z@b.com" = MemStore.rows emptyTable !! "z@b.com".
Proof.
  refine (proj2 (proj1 (proj2 (TableFacts.handler_touches_one_row postAnn emptyTable annTable
            (APIResponse 201 None, None) _)) _) ann "z@b.com" _ _).
  - vm_compute. reflexivity.
  - by left.
  - vm_compute. reflexivity.
  - discriminate.
Defined.

(** [postAnn] on the empty table adds the row of [ann]. *)
Lemma createUser_adds_fresh_row_run :
  ∃ sent av,
    json_Unmarshal (APIGatewayProxyRequest.Body postAnn) = Ok sent ∧
    isEmailValid (Email sent) = true ∧
    MarshalMap sent = Ok av ∧
    MemStore.rows emptyTable !! Email sent = None ∧
    MemStore.rows annTable = <[Email sent := av]> (MemStore.rows emptyTable).
Proof.
  refine (proj1 (TableFacts.createUser_adds_fresh_row postAnn emptyTable annTable
            (APIResponse 201 None) None written_empty _) _).
  - vm_compute. reflexivity.
  - reflexivity.
Defined.

(** [putAnn2] on the table of [ann] replaces her row. *)
Lemma updateUser_replaces_row_run :
  ∃ sent av old,
    json_Unmarshal (APIGatewayProxyRequest.Body putAnn2) = Ok sent ∧
    MarshalMap sent = Ok av ∧
    MemStore.rows annTable !! Email sent = Some old ∧
    MemStore.rows (MemStore.reliable {["a@b.com" := ann2Item]})
    = <[Email sent := av]> (MemStore.rows annTable).
Proof.
  refine (proj1 (TableFacts.updateUser_replaces_row putAnn2 annTable
            (MemStore.reliable {["a@b.com" := ann2Item]})
            (APIResponse 201 None) None _) _).
  - vm_compute. reflexivity.
  - reflexivity.
Defined.

(** [putAnn2] on the table of [ann], then a lookup. *)
Lemma update_then_fetch_run :
  ∃ av,
    MarshalMap ann2 = Ok av ∧
    updateUser putAnn2 (MemStore.reliable {["a@b.com" := annItem]})
    = Done ((APIResponse 201 None, None),
            MemStore.reliable (<[Email ann2 := av]> {["a@b.com" := annItem]})) ∧
    fetchUser (Email ann2) (MemStore.reliable (<[Email ann2 := av]> {["a@b.com" := annItem]}))
    = Done ((Some ann2, None),
            MemStore.reliable (<[Email ann2 := av]> {["a@b.com" := annItem]})).
Proof.
  apply (TableFacts.update_then_fetch {["a@b.com" := annItem]} putAnn2 ann2 annItem
           written_ann);
    vm_compute; reflexivity.
Defined.

(** [deleteAnn] on the table of [ann], then [postAnn2]. *)
Lemma delete_then_create_run :
  deleteUser deleteAnn (MemStore.reliable {["a@b.com" := annItem]})
  = Done ((APIResponse 200 (Some (VDeleteItemOutput (mkDeleteItemOutput None))), None),
          MemStore.reliable (delete "a@b.com" {["a@b.com" := annItem]})) ∧
  deleteUser deleteAnn (MemStore.reliable (delete "a@b.com" {["a@b.com" := annItem]}))
  = Done ((APIResponse 200 (Some (VDeleteItemOutput (mkDeleteItemOutput None))), None),
          MemStore.reliable (delete "a@b.com" {["a@b.com" := annItem]})) ∧
  fetchUser "a@b.com" (MemStore.reliable (delete "a@b.com" {["a@b.com" := annItem]}))
  = Done ((Some zeroUser, None),
          MemStore.reliable (delete "a@b.com" {["a@b.com" := annItem]})) ∧
  ∃ av, MarshalMap ann2 = Ok av ∧
        createUser postAnn2 (MemStore.reliable (delete "a@b.com" {["a@b.com" := annItem]}))
        = Done ((APIResponse 201 None, None),
                MemStore.reliable (<["a@b.com" := av]> {["a@b.com" := annItem]})).
Proof.
  apply (TableFacts.delete_then_create {["a@b.com" := annItem]} deleteAnn postAnn2 ann2);
    vm_compute; reflexivity.
Defined.

(** A PUT on the table of [ann] is answered. *)
Lemma handler_answers_on_working_store_run :
  ∃ reply st', handler putAnn2 (MemStore.reliable {["a@b.com" := annItem]})
               = Done (reply, st').
Proof.
  apply (TableFacts.handler_answers_on_working_store {["a@b.com" := annItem]} putAnn2
           written_ann).
  intros _ sent Hsent. vm_compute in Hsent. injection Hsent as <-. discriminate.
Defined.

(** The bytes of [a@b.com]. *)
Lemma accepted_bytes_run :
  Forall (λ c, (33 ≤ nat_of_ascii c ≤ 126)%nat) (list_ascii_of_string "a@b.com") ∧
  ∃ c, last (list_ascii_of_string "a@b.com") = Some c ∧ letterOrDigit c = true.
Proof.
  apply (AddressFacts.accepted_bytes "a@b.com"). vm_compute. reflexivity.
Defined.

(** [a@b]: one byte, an [@], a label of one byte. *)
Lemma single_label_accepted_run : isEmailValid "a@b" = true.
Proof.
  apply (AddressFacts.single_label_accepted ["a"%char] ["b"%char]).
  - split; [simpl; lia | by repeat constructor].
  - split_and!; [simpl; lia | simpl; lia | by repeat constructor | by exists "b"%char
                 | by exists "b"%char].
Defined.

End MoreRuns.
